(** * CycleGAN generator (tensorflow_gan/examples/cyclegan/generator.py)

    The module is a graph builder: every call into the tensor framework
    creates a node of a dataflow graph and returns a handle to it.  The
    embedding keeps exactly that: a [Tensor] is the symbolic node, the
    builder functions are translated line by line, Python exceptions are an
    error monad, and the [end_points] dictionary is a finite map. *)

From Stdlib Require Import ZArith NArith QArith List Ascii String Reals Qreals Lra.
From stdpp Require Import base option list list_numbers strings pretty gmap.

Local Open Scope string_scope.
Local Open Scope Z_scope.

(** ** Python values used by the module *)

(** Exceptions.  The module itself only raises [ValueError]; the libraries it
    calls and a caller-supplied [upsample_fn] may raise anything. *)
Inductive Exception :=
| ValueError (msg : string)
| OtherException (cls msg : string).

Inductive result (A : Type) :=
| Ok (a : A)
| Raise (e : Exception).
Arguments Ok {A} a.
Arguments Raise {A} e.

#[global] Instance result_ret : MRet result := λ A a, Ok a.
#[global] Instance result_bind : MBind result := λ A B f m,
  match m with
  | Ok a => f a
  | Raise e => Raise e
  end.

#[global] Instance result_fmap : FMap result := λ A B f m,
  match m with
  | Ok a => Ok (f a)
  | Raise e => Raise e
  end.

Definition is_ValueError {A} (r : result A) : Prop :=
  ∃ msg, r = Raise (ValueError msg).

(** The static shape of an image batch.  The images are documented as a
    tensor "of shape [batch_size, h, w, 3]", so [as_list()] has four entries
    and [input_size[1]], [input_size[2]], [input_size[3]] are the height, the
    width and the channel count; a dimension unknown at graph construction is
    [None]. *)
Record TensorShape := mkShape {
  dim_batch : option Z;
  dim_height : option Z;
  dim_width : option Z;
  dim_channels : option Z }.

Definition as_list (s : TensorShape) : list (option Z) :=
  [dim_batch s; dim_height s; dim_width s; dim_channels s].

Definition is_fully_defined (s : TensorShape) : bool :=
  forallb (λ d : option Z, match d with Some _ => true | None => false end)
    (as_list s).

(** [kernel_size]: "Size w or list/tuple [h, w]". *)
Inductive KernelSize :=
| KInt (k : Z)
| KList (kernel_height kernel_width : Z).

Inductive ResizeMethod := NEAREST_NEIGHBOR | BILINEAR.

(** [tf.random_normal_initializer(mean, stddev)].  Float literals of the
    source ([0.02], [0.001], [0.0]) are kept as the rationals they denote. *)
Record Initializer := random_normal_initializer {
  init_mean : Q;
  init_stddev : Q }.

(** One component of a subscript such as [net[:, 1:, 1:, :]]. *)
Inductive SliceSpec :=
| SliceAll
| SliceFrom (start : Z).

(** ** Graph nodes

    One constructor per framework call made by the module.  Layers that own
    variables record the variable scope they are created in. *)
Inductive Tensor :=
| placeholder (name : string)
| tf_shape (input : Tensor)
| getitem (t : Tensor) (index : Z)
| scalar_times (k : Z) (t : Tensor)
| tf_image_resize (images : Tensor) (size_height size_width : Tensor)
    (method : ResizeMethod)
| tf_pad (tensor : Tensor) (paddings : list (Z * Z)) (mode : string)
| tf_layers_conv2d (scope : list string) (inputs : Tensor)
    (filters : option Z) (kernel_size : KernelSize) (strides : Z)
    (padding : string) (kernel_initializer : Initializer) (use_bias : bool)
| tf_layers_conv2d_transpose (scope : list string) (inputs : Tensor)
    (filters : Z) (kernel_size : Z * Z) (strides : Z * Z) (padding : string)
| tfgan_features_instance_norm (scope : list string) (inputs : Tensor)
    (center scale : bool) (epsilon : Q)
| tf_nn_relu (features : Tensor)
| subscript (t : Tensor) (slices : list SliceSpec)
| tensor_add (x y : Tensor)
| tensor_times (x : Tensor) (slope : Q)
| tf_tanh (x : Tensor)
| tf_reshape (tensor : Tensor) (shape : ReshapeArg)
with ReshapeArg :=
| ShapeList (dims : list (option Z))
| ShapeTensor (t : Tensor).

(** [with tf.variable_scope(name):] extends the scope in force.  The
    framework keeps that scope in a context stack; the builders below take it
    as their first argument.  [strides] is "a list of 2 scalars", a pair. *)
Definition variable_scope (scope : list string) (name : string) : list string :=
  scope ++ [name].

(** ** Library calls that refuse their arguments

    Two of the library calls the module makes check an argument that the
    module passes through from its caller, and raise before any node is
    created.  These checks are the libraries', not the module's; they are
    kept because they decide whether the module's functions return. *)

(** [str.upper()] on ASCII letters. *)
Definition upper_ascii (c : ascii) : ascii :=
  let n := N_of_ascii c in
  if ((97 <=? n) && (n <=? 122))%N then ascii_of_N (n - 32) else c.

Fixpoint upper (s : string) : string :=
  match s with
  | EmptyString => EmptyString
  | String c rest => String (upper_ascii c) (upper rest)
  end.

Inductive PadMode := CONSTANT | REFLECT | SYMMETRIC.

(** The padding modes [tf.pad] knows; the comparison is case-insensitive. *)
Definition pad_mode_kind (mode : string) : option PadMode :=
  let mode := upper mode in
  if String.eqb mode "CONSTANT" then Some CONSTANT
  else if String.eqb mode "REFLECT" then Some REFLECT
  else if String.eqb mode "SYMMETRIC" then Some SYMMETRIC
  else None.

(** [tf.pad(tensor, paddings, mode=mode)]: a [ValueError] on a mode it does
    not know, a pad node otherwise. *)
Definition tf_pad_call (tensor : Tensor) (paddings : list (Z * Z))
    (mode : string) : result Tensor :=
  match pad_mode_kind mode with
  | Some _ => Ok (tf_pad tensor paddings mode)
  | None => Raise (ValueError ("Unknown padding mode: " +:+ upper mode))
  end.

Definition fits_int32 (n : Z) : bool :=
  (-2147483648 <=? n) && (n <=? 2147483647).

(** [np.array(rows, dtype=np.int32)] on a list of pairs of Python integers:
    an integer outside the range of [int32] is an [OverflowError]. *)
Definition np_array_int32 (rows : list (Z * Z)) : result (list (Z * Z)) :=
  if forallb (λ row : Z * Z, fits_int32 row.1 && fits_int32 row.2) rows
  then Ok rows
  else Raise (OtherException "OverflowError"
                "Python integer out of bounds for int32").

Section Builders.

(** [tensor.shape], the static shape the framework has inferred for a node.
    Shape inference is the framework's; the module only reads the result. *)
Variable static_shape : Tensor → TensorShape.

(** ** The module's functions *)

Definition _instance_norm (scope : list string) (x : Tensor) : Tensor :=
  tfgan_features_instance_norm scope x true true (1 # 1000).

Definition _conv2d (scope : list string) (net : Tensor) (num_filters : option Z)
    (kernel_size : KernelSize) (strides : Z) : Tensor :=
  tf_layers_conv2d scope net num_filters kernel_size strides "VALID"
    (random_normal_initializer 0 (2 # 100)) false.

Definition cyclegan_upsample (scope : list string) (net : Tensor)
    (num_outputs : Z) (strides : Z * Z) (method pad_mode : string)
    : result Tensor :=
  let scope := variable_scope scope "upconv" in
  let net_shape := tf_shape net in
  let height := getitem net_shape 1 in
  let width := getitem net_shape 2 in
  let spatial_pad_1 := [(0, 0); (1, 1); (1, 1); (0, 0)] in
  if String.eqb method "nn_upsample_conv" then
    let net := tf_image_resize net
      (scalar_times (fst strides) height) (scalar_times (snd strides) width)
      NEAREST_NEIGHBOR in
    net ← tf_pad_call net spatial_pad_1 pad_mode;
    let net := _conv2d scope net (Some num_outputs) (KInt 3) 1 in
    let net := _instance_norm scope net in
    let net := tf_nn_relu net in
    mret net
  else if String.eqb method "bilinear_upsample_conv" then
    let net := tf_image_resize net
      (scalar_times (fst strides) height) (scalar_times (snd strides) width)
      BILINEAR in
    net ← tf_pad_call net spatial_pad_1 pad_mode;
    let net := _conv2d scope net (Some num_outputs) (KInt 3) 1 in
    let net := _instance_norm scope net in
    let net := tf_nn_relu net in
    mret net
  else if String.eqb method "conv2d_transpose" then
    let net := tf_layers_conv2d_transpose scope net num_outputs (3, 3)
      strides "valid" in
    let net := tf_nn_relu net in
    let net := subscript net [SliceAll; SliceFrom 1; SliceFrom 1; SliceAll] in
    mret net
  else
    Raise (ValueError ("Unknown method: [" +:+ method +:+ "]")).

Definition _dynamic_or_static_shape (tensor : Tensor) : ReshapeArg :=
  let static_shape := static_shape tensor in
  let shape := tf_shape tensor in
  if is_fully_defined static_shape then ShapeList (as_list static_shape)
  else ShapeTensor shape.

(** Truth value of a dimension in [if height and ...]: [None] and [0] are
    false. *)
Definition truthy (d : option Z) : bool :=
  match d with
  | Some n => negb (Z.eqb n 0)
  | None => false
  end.

(** [d % 4 != 0]; only evaluated on a truthy [d]. *)
Definition not_multiple_of_4 (d : option Z) : bool :=
  match d with
  | Some n => negb (Z.eqb (n `mod` 4) 0)
  | None => false
  end.

(** One pass of the body of the [for block_id in xrange(...)] loop, on the
    loop-carried pair [(net, end_points)]. *)
Definition residual_block_step (scope : list string)
    (paddings : list (Z * Z)) (num_filters : Z) (kernel_size : KernelSize)
    (st : Tensor * gmap string Tensor) (block_id : Z)
    : Tensor * gmap string Tensor :=
  let '(net, end_points) := st in
  let scope := variable_scope scope ("block_" +:+ pretty block_id) in
  let res_net := tf_pad net paddings "REFLECT" in
  let res_net := _conv2d scope res_net (Some (num_filters * 4)) kernel_size 1 in
  let res_net := _instance_norm scope res_net in
  let res_net := tf_nn_relu res_net in
  let res_net := tf_pad res_net paddings "REFLECT" in
  let res_net := _conv2d scope res_net (Some (num_filters * 4)) kernel_size 1 in
  let res_net := _instance_norm scope res_net in
  let net := tensor_add net res_net in
  let end_points := <["resnet_block_" +:+ pretty block_id := net]> end_points in
  (net, end_points).

Definition cyclegan_generator_resnet (scope : list string) (images : Tensor)
    (num_resnet_blocks : Z) (num_filters : Z)
    (upsample_fn : list string → Tensor → Z → Z * Z → result Tensor)
    (kernel_size : KernelSize) (tanh_linear_slope : Q)
    : result (Tensor * gmap string Tensor) :=
  let end_points : gmap string Tensor := ∅ in
  let input_size := static_shape images in
  let height := dim_height input_size in
  let width := dim_width input_size in
  if truthy height && not_multiple_of_4 height then
    Raise (ValueError "The input height must be a multiple of 4.")
  else if truthy width && not_multiple_of_4 width then
    Raise (ValueError "The input width must be a multiple of 4.")
  else
  let num_outputs := dim_channels input_size in
  let kernel_size :=
    match kernel_size with
    | KInt k => KList k k
    | KList _ _ => kernel_size
    end in
  let kernel_height :=
    match kernel_size with KInt k => k | KList h _ => h end in
  let kernel_width :=
    match kernel_size with KInt k => k | KList _ w => w end in
  let pad_top := (kernel_height - 1) `div` 2 in
  let pad_bottom := kernel_height `div` 2 in
  let pad_left := (kernel_width - 1) `div` 2 in
  let pad_right := kernel_width `div` 2 in
  paddings ← np_array_int32
    [(0, 0); (pad_top, pad_bottom); (pad_left, pad_right); (0, 0)];
  let spatial_pad_3 := [(0, 0); (3, 3); (3, 3); (0, 0)] in
  (* Encoder *)
  let scope_input := variable_scope scope "input" in
  let net := tf_pad images spatial_pad_3 "REFLECT" in
  let net := _conv2d scope_input net (Some num_filters) (KInt 7) 1 in
  let net := _instance_norm scope_input net in
  let net := tf_nn_relu net in
  let end_points := <["encoder_0" := net]> end_points in
  let scope_encoder := variable_scope scope "encoder" in
  let net := tf_pad net paddings "REFLECT" in
  let net := _conv2d scope_encoder net (Some (num_filters * 2)) kernel_size 2 in
  let net := _instance_norm scope_encoder net in
  let net := tf_nn_relu net in
  let end_points := <["encoder_1" := net]> end_points in
  let net := tf_pad net paddings "REFLECT" in
  let net := _conv2d scope_encoder net (Some (num_filters * 4)) kernel_size 2 in
  let net := _instance_norm scope_encoder net in
  let net := tf_nn_relu net in
  let end_points := <["encoder_2" := net]> end_points in
  (* Residual blocks *)
  let scope_blocks := variable_scope scope_encoder "residual_blocks" in
  let '(net, end_points) :=
    fold_left (residual_block_step scope_blocks paddings num_filters kernel_size)
      (seqZ 0 num_resnet_blocks) (net, end_points) in
  (* Decoder *)
  let scope_decoder := variable_scope scope_encoder "decoder" in
  net ← upsample_fn (variable_scope scope_decoder "decoder1") net
          (num_filters * 2) (2, 2);
  let end_points := <["decoder1" := net]> end_points in
  net ← upsample_fn (variable_scope scope_decoder "decoder2") net
          num_filters (2, 2);
  let end_points := <["decoder2" := net]> end_points in
  let scope_output := variable_scope scope_encoder "output" in
  let net := tf_pad net spatial_pad_3 "REFLECT" in
  let logits := _conv2d scope_output net num_outputs (KInt 7) 1 in
  let logits := tf_reshape logits (_dynamic_or_static_shape images) in
  let end_points := <["logits" := logits]> end_points in
  let end_points :=
    <["predictions" :=
        tensor_add (tf_tanh logits) (tensor_times logits tanh_linear_slope)]>
      end_points in
  match end_points !! "predictions" with
  | Some predictions => mret (predictions, end_points)
  | None => Raise (OtherException "KeyError" "predictions")
  end.

(** The default [upsample_fn]: [cyclegan_upsample] with its keyword defaults
    [method='conv2d_transpose'], [pad_mode='REFLECT']. *)
Definition default_upsample_fn
    : list string → Tensor → Z → Z * Z → result Tensor :=
  λ scope net num_outputs strides,
    cyclegan_upsample scope net num_outputs strides "conv2d_transpose" "REFLECT".

End Builders.

(** ** The framework calls of [cyclegan_upsample]

    [cyclegan_upsample] once more, this time keeping the list of the
    framework operations it creates, in program order, next to its outcome.
    A call that raises creates no operation. *)
Definition Traced (A : Type) : Type := (list Tensor * result A)%type.

#[global] Instance traced_ret : MRet Traced := λ A a, ([], Ok a).
#[global] Instance traced_bind : MBind Traced := λ A B f m,
  match m.2 with
  | Ok a => ((m.1 ++ (f a).1)%list, (f a).2)
  | Raise e => (m.1, Raise e)
  end.

(** A framework call that creates the operation [node]. *)
Definition created (node : Tensor) : Traced Tensor := ([node], Ok node).

(** A framework call that may refuse its arguments. *)
Definition called (r : result Tensor) : Traced Tensor :=
  match r with
  | Ok node => created node
  | Raise e => ([], Raise e)
  end.

Definition raised {A} (e : Exception) : Traced A := ([], Raise e).

Definition cyclegan_upsample_calls (scope : list string) (net : Tensor)
    (num_outputs : Z) (strides : Z * Z) (method pad_mode : string)
    : Traced Tensor :=
  let scope := variable_scope scope "upconv" in
  net_shape ← created (tf_shape net);
  height ← created (getitem net_shape 1);
  width ← created (getitem net_shape 2);
  let spatial_pad_1 := [(0, 0); (1, 1); (1, 1); (0, 0)] in
  if String.eqb method "nn_upsample_conv" then
    size_height ← created (scalar_times (fst strides) height);
    size_width ← created (scalar_times (snd strides) width);
    net ← created (tf_image_resize net size_height size_width NEAREST_NEIGHBOR);
    net ← called (tf_pad_call net spatial_pad_1 pad_mode);
    net ← created (_conv2d scope net (Some num_outputs) (KInt 3) 1);
    net ← created (_instance_norm scope net);
    net ← created (tf_nn_relu net);
    mret net
  else if String.eqb method "bilinear_upsample_conv" then
    size_height ← created (scalar_times (fst strides) height);
    size_width ← created (scalar_times (snd strides) width);
    net ← created (tf_image_resize net size_height size_width BILINEAR);
    net ← called (tf_pad_call net spatial_pad_1 pad_mode);
    net ← created (_conv2d scope net (Some num_outputs) (KInt 3) 1);
    net ← created (_instance_norm scope net);
    net ← created (tf_nn_relu net);
    mret net
  else if String.eqb method "conv2d_transpose" then
    net ← created (tf_layers_conv2d_transpose scope net num_outputs (3, 3)
                     strides "valid");
    net ← created (tf_nn_relu net);
    net ← created (subscript net [SliceAll; SliceFrom 1; SliceFrom 1; SliceAll]);
    mret net
  else
    raised (ValueError ("Unknown method: [" +:+ method +:+ "]")).

(** ** Shape bookkeeping

    What a node evaluates to, as far as shapes are concerned: a tensor of
    numbers is known by its shape, and the integer tensors that come out of
    [tf.shape] are known by their elements.  Each case follows the output-size
    rule of the corresponding framework op; [None] means that the op does not
    accept its operands: a resize of or to an empty image, a padding that is
    negative or too large for the mode, a convolution whose window does not
    fit or whose filter count, kernel size or stride is not positive, an
    addition of shapes that do not broadcast, a reshape that changes the
    number of elements, an operand of the wrong kind or rank. *)
Inductive Value :=
| VShape (dims : list Z)
| VInts (elems : list Z)
| VInt (n : Z).

Definition kernel_hw (kernel_size : KernelSize) : Z * Z :=
  match kernel_size with
  | KInt k => (k, k)
  | KList h w => (h, w)
  end.

(** Output length of a VALID convolution along one axis. *)
Definition conv_output_length (input kernel stride : Z) : Z :=
  (input - kernel) `div` stride + 1.

(** Output length of a transposed convolution with 'valid' padding. *)
Definition deconv_output_length (input kernel stride : Z) : Z :=
  input * stride + Z.max (kernel - stride) 0.

Definition slice_length (d : Z) (s : SliceSpec) : Z :=
  match s with
  | SliceAll => d
  | SliceFrom start => Z.max (d - start) 0
  end.

Definition num_elements (dims : list Z) : Z := foldr Z.mul 1 dims.

Definition known_dims (dims : list (option Z)) : option (list Z) :=
  mapM (λ d, d) dims.

(** The value [v] of a node, if the node has one, is a tensor of shape
    [dims]. *)
Definition at_most (v : option Value) (dims : list Z) : Prop :=
  ∀ v', v = Some v' → v' = VShape dims.

(** A resize takes a non-empty image to a non-empty image. *)
Definition resize_ok (h w new_h new_w : Z) : bool :=
  (1 <=? h) && (1 <=? w) && (1 <=? new_h) && (1 <=? new_w).

(** The paddings [(before, after)] that a mode accepts on a dimension of
    size [d]: none is negative; a reflection cannot reach past the other end
    ([REFLECT] mirrors without, [SYMMETRIC] with the border). *)
Definition pad_ok (kind : PadMode) (d : Z) (padding : Z * Z) : bool :=
  (0 <=? padding.1) && (0 <=? padding.2)
  && match kind with
     | CONSTANT => true
     | REFLECT => (padding.1 <? d) && (padding.2 <? d)
     | SYMMETRIC => (padding.1 <=? d) && (padding.2 <=? d)
     end.

Fixpoint pads_ok (kind : PadMode) (dims : list Z) (paddings : list (Z * Z))
    : bool :=
  match dims, paddings with
  | [], [] => true
  | d :: dims, padding :: paddings =>
      pad_ok kind d padding && pads_ok kind dims paddings
  | _, _ => false
  end.

(** A VALID convolution over [h] by [w] inputs of [c] channels. *)
Definition conv_ok (h w c filters : Z) (kernel_size : KernelSize) (strides : Z)
    : bool :=
  (1 <=? c) && (1 <=? filters) && (1 <=? strides)
  && (1 <=? (kernel_hw kernel_size).1) && ((kernel_hw kernel_size).1 <=? h)
  && (1 <=? (kernel_hw kernel_size).2) && ((kernel_hw kernel_size).2 <=? w).

(** NumPy broadcasting of two dimensions, and of two shapes aligned at their
    last dimension. *)
Definition broadcast_dim (x y : Z) : option Z :=
  if Z.eqb x y then Some x
  else if Z.eqb x 1 then Some y
  else if Z.eqb y 1 then Some x
  else None.

Fixpoint broadcast_aligned (xs ys : list Z) : option (list Z) :=
  match xs, ys with
  | [], _ => Some ys
  | _, [] => Some xs
  | x :: xs, y :: ys =>
      d ← broadcast_dim x y;
      ds ← broadcast_aligned xs ys;
      Some (d :: ds)
  end.

Definition broadcast (xs ys : list Z) : option (list Z) :=
  reverse <$> broadcast_aligned (reverse xs) (reverse ys).

Section Infer.

(** The shapes fed to the graph's placeholders. *)
Variable feed : gmap string (list Z).

Fixpoint infer (t : Tensor) : option Value :=
  match t with
  | placeholder name => VShape <$> feed !! name
  | tf_shape input =>
      match infer input with
      | Some (VShape dims) => Some (VInts dims)
      | _ => None
      end
  | getitem t index =>
      match infer t with
      | Some (VInts elems) =>
          if decide (0 ≤ index) then VInt <$> elems !! Z.to_nat index else None
      | _ => None
      end
  | scalar_times k t =>
      match infer t with
      | Some (VInt n) => Some (VInt (k * n))
      | _ => None
      end
  | tf_image_resize images size_height size_width _ =>
      match infer images, infer size_height, infer size_width with
      | Some (VShape [b; h; w; c]), Some (VInt new_h), Some (VInt new_w) =>
          if resize_ok h w new_h new_w
          then Some (VShape [b; new_h; new_w; c])
          else None
      | _, _, _ => None
      end
  | tf_pad tensor paddings mode =>
      match infer tensor, pad_mode_kind mode with
      | Some (VShape dims), Some kind =>
          if pads_ok kind dims paddings
          then Some (VShape (zip_with (λ d p, p.1 + d + p.2) dims paddings))
          else None
      | _, _ => None
      end
  | tf_layers_conv2d _ inputs filters kernel_size strides padding _ _ =>
      match infer inputs, filters with
      | Some (VShape [b; h; w; c]), Some f =>
          if String.eqb padding "VALID" && conv_ok h w c f kernel_size strides
          then Some (VShape [b;
                 conv_output_length h (kernel_hw kernel_size).1 strides;
                 conv_output_length w (kernel_hw kernel_size).2 strides;
                 f])
          else None
      | _, _ => None
      end
  | tf_layers_conv2d_transpose _ inputs filters kernel_size strides padding =>
      match infer inputs with
      | Some (VShape [b; h; w; _]) =>
          if String.eqb padding "valid"
          then Some (VShape [b;
                 deconv_output_length h kernel_size.1 strides.1;
                 deconv_output_length w kernel_size.2 strides.2;
                 filters])
          else None
      | _ => None
      end
  | tfgan_features_instance_norm _ inputs _ _ _ =>
      match infer inputs with
      | Some (VShape dims) => Some (VShape dims)
      | _ => None
      end
  | tf_nn_relu features =>
      match infer features with
      | Some (VShape dims) => Some (VShape dims)
      | _ => None
      end
  | subscript t slices =>
      match infer t with
      | Some (VShape dims) =>
          if decide (length dims = length slices)
          then Some (VShape (zip_with slice_length dims slices))
          else None
      | _ => None
      end
  | tensor_add x y =>
      match infer x, infer y with
      | Some (VShape dx), Some (VShape dy) => VShape <$> broadcast dx dy
      | _, _ => None
      end
  | tensor_times x _ =>
      match infer x with
      | Some (VShape dims) => Some (VShape dims)
      | _ => None
      end
  | tf_tanh x =>
      match infer x with
      | Some (VShape dims) => Some (VShape dims)
      | _ => None
      end
  | tf_reshape tensor shape =>
      let target :=
        match shape with
        | ShapeList dims => known_dims dims
        | ShapeTensor s =>
            match infer s with
            | Some (VInts elems) => Some elems
            | _ => None
            end
        end in
      match infer tensor, target with
      | Some (VShape dims), Some new_dims =>
          if decide (num_elements dims = num_elements new_dims)
          then Some (VShape new_dims)
          else None
      | _, _ => None
      end
  end.

End Infer.

(** ** The stages, as the architecture description names them

    These follow the description of the topology (input stage, two
    stride-2 encoder convolutions, residual blocks, two upsampling stages,
    output convolution), written out in the framework's operations with all
    their arguments; the theorems below compare them with the graph that
    [cyclegan_generator_resnet] builds. *)

(** The "same"-size padding of a [kernel_size] window. *)
Definition kernel_paddings (kernel_size : KernelSize) : list (Z * Z) :=
  let '(kh, kw) := kernel_hw kernel_size in
  [(0, 0); ((kh - 1) `div` 2, kh `div` 2); ((kw - 1) `div` 2, kw `div` 2); (0, 0)].

Definition kernel_list (kernel_size : KernelSize) : KernelSize :=
  let '(kh, kw) := kernel_hw kernel_size in KList kh kw.

(** Reflect-padded 7x7 convolution, instance normalization, ReLU. *)
Definition input_stage (scope : list string) (num_filters : Z) (x : Tensor)
    : Tensor :=
  tf_nn_relu
    (tfgan_features_instance_norm (scope ++ ["input"])
       (tf_layers_conv2d (scope ++ ["input"])
          (tf_pad x [(0, 0); (3, 3); (3, 3); (0, 0)] "REFLECT")
          (Some num_filters) (KInt 7) 1 "VALID"
          (random_normal_initializer 0 (2 # 100)) false)
       true true (1 # 1000)).

(** Reflect padding, stride-2 convolution, instance normalization, ReLU. *)
Definition encoder_stage (scope : list string) (filters : Z)
    (kernel_size : KernelSize) (x : Tensor) : Tensor :=
  tf_nn_relu
    (tfgan_features_instance_norm (scope ++ ["encoder"])
       (tf_layers_conv2d (scope ++ ["encoder"])
          (tf_pad x (kernel_paddings kernel_size) "REFLECT")
          (Some filters) (kernel_list kernel_size) 2 "VALID"
          (random_normal_initializer 0 (2 # 100)) false)
       true true (1 # 1000)).

Definition block_scope (scope : list string) (i : Z) : list string :=
  scope ++ ["encoder"; "residual_blocks"; "block_" +:+ pretty i].

(** The path [f] of residual block [i]:
    reflect-pad, conv2d, instance-norm, ReLU, reflect-pad, conv2d,
    instance-norm. *)
Definition residual_path (scope : list string) (num_filters : Z)
    (kernel_size : KernelSize) (i : Z) (x : Tensor) : Tensor :=
  tfgan_features_instance_norm (block_scope scope i)
    (tf_layers_conv2d (block_scope scope i)
       (tf_pad
          (tf_nn_relu
             (tfgan_features_instance_norm (block_scope scope i)
                (tf_layers_conv2d (block_scope scope i)
                   (tf_pad x (kernel_paddings kernel_size) "REFLECT")
                   (Some (num_filters * 4)) (kernel_list kernel_size) 1 "VALID"
                   (random_normal_initializer 0 (2 # 100)) false)
                true true (1 # 1000)))
          (kernel_paddings kernel_size) "REFLECT")
       (Some (num_filters * 4)) (kernel_list kernel_size) 1 "VALID"
       (random_normal_initializer 0 (2 # 100)) false)
    true true (1 # 1000).

(** [output = input + f(input)]. *)
Definition residual_block (scope : list string) (num_filters : Z)
    (kernel_size : KernelSize) (i : Z) (x : Tensor) : Tensor :=
  tensor_add x (residual_path scope num_filters kernel_size i x).

(** Blocks [0 .. n-1] applied in turn. *)
Fixpoint residual_blocks (scope : list string) (num_filters : Z)
    (kernel_size : KernelSize) (n : nat) (x : Tensor) : Tensor :=
  match n with
  | O => x
  | S k =>
      residual_block scope num_filters kernel_size (Z.of_nat k)
        (residual_blocks scope num_filters kernel_size k x)
  end.

Definition decoder_scope (scope : list string) (name : string) : list string :=
  scope ++ ["encoder"; "decoder"; name].

(** Reflect-padded 7x7 convolution to [num_outputs] channels. *)
Definition output_conv (scope : list string) (num_outputs : option Z)
    (x : Tensor) : Tensor :=
  tf_layers_conv2d (scope ++ ["encoder"; "output"])
    (tf_pad x [(0, 0); (3, 3); (3, 3); (0, 0)] "REFLECT")
    num_outputs (KInt 7) 1 "VALID"
    (random_normal_initializer 0 (2 # 100)) false.

(** The reshape target of the logits: the static shape of the images when
    it is fully defined, their dynamic shape otherwise. *)
Definition shape_of_images (static_shape : Tensor → TensorShape)
    (images : Tensor) : ReshapeArg :=
  if is_fully_defined (static_shape images)
  then ShapeList (as_list (static_shape images))
  else ShapeTensor (tf_shape images).

(** What the three upsampling methods build from [net]. *)
Definition resize_conv (scope : list string) (method : ResizeMethod)
    (pad_mode : string) (num_outputs : Z) (strides : Z * Z) (net : Tensor)
    : Tensor :=
  tf_nn_relu
    (tfgan_features_instance_norm (scope ++ ["upconv"])
       (tf_layers_conv2d (scope ++ ["upconv"])
          (tf_pad
             (tf_image_resize net
                (scalar_times strides.1 (getitem (tf_shape net) 1))
                (scalar_times strides.2 (getitem (tf_shape net) 2))
                method)
             [(0, 0); (1, 1); (1, 1); (0, 0)] pad_mode)
          (Some num_outputs) (KInt 3) 1 "VALID"
          (random_normal_initializer 0 (2 # 100)) false)
       true true (1 # 1000)).

Definition transposed_conv (scope : list string) (num_outputs : Z)
    (strides : Z * Z) (net : Tensor) : Tensor :=
  subscript
    (tf_nn_relu
       (tf_layers_conv2d_transpose (scope ++ ["upconv"]) net num_outputs (3, 3)
          strides "valid"))
    [SliceAll; SliceFrom 1; SliceFrom 1; SliceAll].

Definition upsampled (scope : list string) (method pad_mode : string)
    (num_outputs : Z) (strides : Z * Z) (net : Tensor) : Tensor :=
  if String.eqb method "nn_upsample_conv"
  then resize_conv scope NEAREST_NEIGHBOR pad_mode num_outputs strides net
  else if String.eqb method "bilinear_upsample_conv"
  then resize_conv scope BILINEAR pad_mode num_outputs strides net
  else transposed_conv scope num_outputs strides net.

Definition resnet_block_key (i : Z) : string := "resnet_block_" +:+ pretty i.

(** A dimension on which the height/width check raises: statically known,
    nonzero, and not a multiple of 4. *)
Definition rejected_dimension (d : option Z) : Prop :=
  ∃ n, d = Some n ∧ n ≠ 0 ∧ n `mod` 4 ≠ 0.

Definition known_methods : list string :=
  ["nn_upsample_conv"; "bilinear_upsample_conv"; "conv2d_transpose"].

(** The [end_points] entries that the residual loop records. *)
Fixpoint record_blocks (scope : list string) (num_filters : Z)
    (kernel_size : KernelSize) (n : nat) (x : Tensor)
    (end_points : gmap string Tensor) : gmap string Tensor :=
  match n with
  | O => end_points
  | S k =>
      <[resnet_block_key (Z.of_nat k) :=
          residual_blocks scope num_filters kernel_size (S k) x]>
        (record_blocks scope num_filters kernel_size k x end_points)
  end.

(** The whole topology: encoder, residual blocks, decoder, output stage. *)
Definition generator_stages (static_shape : Tensor → TensorShape)
    (scope : list string) (images : Tensor) (num_resnet_blocks num_filters : Z)
    (upsample_fn : list string → Tensor → Z → Z * Z → result Tensor)
    (kernel_size : KernelSize) (tanh_linear_slope : Q)
    : result (Tensor * gmap string Tensor) :=
  let encoder_0 := input_stage scope num_filters images in
  let encoder_1 := encoder_stage scope (num_filters * 2) kernel_size encoder_0 in
  let encoder_2 := encoder_stage scope (num_filters * 4) kernel_size encoder_1 in
  let blocks := Z.to_nat num_resnet_blocks in
  let net := residual_blocks scope num_filters kernel_size blocks encoder_2 in
  decoder1 ← upsample_fn (decoder_scope scope "decoder1") net
               (num_filters * 2) (2, 2);
  decoder2 ← upsample_fn (decoder_scope scope "decoder2") decoder1
               num_filters (2, 2);
  let logits :=
    tf_reshape
      (output_conv scope (dim_channels (static_shape images)) decoder2)
      (shape_of_images static_shape images) in
  let predictions :=
    tensor_add (tf_tanh logits) (tensor_times logits tanh_linear_slope) in
  mret (predictions,
        <["predictions" := predictions]> (<["logits" := logits]>
        (<["decoder2" := decoder2]> (<["decoder1" := decoder1]>
        (record_blocks scope num_filters kernel_size blocks encoder_2
        (<["encoder_2" := encoder_2]> (<["encoder_1" := encoder_1]>
        (<["encoder_0" := encoder_0]> ∅)))))))).

(** The static shape [s] describes a tensor whose shape at run time is
    [dims]: every statically known dimension has its run-time value. *)
Definition dim_matches (d : option Z) (v : Z) : Prop :=
  match d with
  | Some k => k = v
  | None => True
  end.

Definition describes (s : TensorShape) (dims : list Z) : Prop :=
  Forall2 dim_matches (as_list s) dims.

(** ** Normalization sites

    The arguments [(center, scale, epsilon)] of every instance-normalization
    node in the graph of a tensor. *)
Fixpoint norm_sites (t : Tensor) : list (bool * bool * Q) :=
  match t with
  | placeholder _ => []
  | tf_shape input => norm_sites input
  | getitem t _ => norm_sites t
  | scalar_times _ t => norm_sites t
  | tf_image_resize images size_height size_width _ =>
      norm_sites images ++ norm_sites size_height ++ norm_sites size_width
  | tf_pad tensor _ _ => norm_sites tensor
  | tf_layers_conv2d _ inputs _ _ _ _ _ _ => norm_sites inputs
  | tf_layers_conv2d_transpose _ inputs _ _ _ _ => norm_sites inputs
  | tfgan_features_instance_norm _ inputs center scale epsilon =>
      (center, scale, epsilon) :: norm_sites inputs
  | tf_nn_relu features => norm_sites features
  | subscript t _ => norm_sites t
  | tensor_add x y => norm_sites x ++ norm_sites y
  | tensor_times x _ => norm_sites x
  | tf_tanh x => norm_sites x
  | tf_reshape tensor shape =>
      norm_sites tensor ++
      match shape with
      | ShapeList _ => []
      | ShapeTensor s => norm_sites s
      end
  end.

(** The arguments with which [_instance_norm] calls the layer. *)
Definition module_norm : bool * bool * Q := (true, true, 1 # 1000).

(** Every normalization in the graph of [t] is made with those arguments. *)
Definition only_module_norm (t : Tensor) : Prop :=
  Forall (λ site, site = module_norm) (norm_sites t).

(** ** What instance normalization computes

    Values of an image batch: sample, row, column, channel. *)
Definition Image : Type := nat → nat → nat → nat → R.

Fixpoint sum_to (n : nat) (f : nat → R) : R :=
  match n with
  | O => 0%R
  | S k => (sum_to k f + f k)%R
  end.

Section InstanceNorm.

(** Height and width of the images. *)
Variables height width : nat.

Definition slice_sum (f : nat → nat → R) : R :=
  sum_to height (λ i, sum_to width (λ j, f i j)).

Definition slice_size : R := (INR height * INR width)%R.

(** Mean and variance of the slice of sample [n] and channel [c]. *)
Definition slice_mean (x : Image) (n c : nat) : R :=
  (slice_sum (λ i j, x n i j c) / slice_size)%R.

Definition slice_variance (x : Image) (n c : nat) : R :=
  (slice_sum (λ i j, (x n i j c - slice_mean x n c) ²) / slice_size)%R.

(** Modelled from the spec: [tfgan.features.instance_norm], the layer of the
    tensorflow_gan package that [_instance_norm] calls and that is not among
    the sources.  It is the per-sample, per-channel normalization of the
    glossary: every (sample, channel) slice is centred by its own mean and
    divided by the square root of its own variance plus [epsilon]; [scale]
    multiplies by the learned per-channel [gamma], [center] adds the learned
    per-channel [beta]. *)
Definition instance_norm (center scale : bool) (epsilon : R)
    (beta gamma : nat → R) (x : Image) : Image :=
  λ n i j c,
    ((if scale then gamma c else 1)
     * ((x n i j c - slice_mean x n c) / sqrt (slice_variance x n c + epsilon))
     + (if center then beta c else 0))%R.

(** The function of its input that a normalization node computes, given the
    values of the variables it owns. *)
Definition norm_value (t : Tensor) (beta gamma : nat → R) (x : Image)
    : option Image :=
  match t with
  | tfgan_features_instance_norm _ _ center scale epsilon =>
      Some (instance_norm center scale (Q2R epsilon) beta gamma x)
  | _ => None
  end.

End InstanceNorm.

(** ** The module's namespace

    The module docstring and the names the module defines at top level, in
    source order. *)
Definition module_docstring : string :=
  "Defines the CycleGAN generator and discriminator networks.".

Definition module_definitions : list string :=
  ["_instance_norm"; "cyclegan_upsample"; "_dynamic_or_static_shape";
   "_conv2d"; "cyclegan_generator_resnet"].

(** [needle in haystack]. *)
Fixpoint contains (needle haystack : string) : bool :=
  String.prefix needle haystack
  || match haystack with
     | EmptyString => false
     | String _ rest => contains needle rest
     end.

(** ** Names of the recorded end points *)

(** The entries that every successful call records, whatever the number of
    residual blocks. *)
Definition fixed_keys : list string :=
  ["encoder_0"; "encoder_1"; "encoder_2"; "decoder1"; "decoder2"; "logits";
   "predictions"].

(** [upsample_fn = functools.partial(cyclegan_upsample, method=..., pad_mode=...)]:
    the module's own upsampling function under a chosen method. *)
Definition upsample_with (method pad_mode : string)
    : list string → Tensor → Z → Z * Z → result Tensor :=
  λ scope net num_outputs strides,
    cyclegan_upsample scope net num_outputs strides method pad_mode.

(** The entry [key] of [end_points] is a tensor of shape [dims]. *)
Definition entry_has_shape (feed : gmap string (list Z))
    (end_points : gmap string Tensor) (key : string) (dims : list Z) : Prop :=
  ∃ t, end_points !! key = Some t ∧ infer feed t = Some (VShape dims).

(** ** Variable scopes of the layers

    The variable scope of every layer with variables (convolution, transposed
    convolution, instance normalization) in the graph of a tensor. *)
Fixpoint layer_scopes (t : Tensor) : list (list string) :=
  match t with
  | placeholder _ => []
  | tf_shape input => layer_scopes input
  | getitem t _ => layer_scopes t
  | scalar_times _ t => layer_scopes t
  | tf_image_resize images size_height size_width _ =>
      layer_scopes images ++ layer_scopes size_height ++ layer_scopes size_width
  | tf_pad tensor _ _ => layer_scopes tensor
  | tf_layers_conv2d scope inputs _ _ _ _ _ _ => scope :: layer_scopes inputs
  | tf_layers_conv2d_transpose scope inputs _ _ _ _ =>
      scope :: layer_scopes inputs
  | tfgan_features_instance_norm scope inputs _ _ _ =>
      scope :: layer_scopes inputs
  | tf_nn_relu features => layer_scopes features
  | subscript t _ => layer_scopes t
  | tensor_add x y => layer_scopes x ++ layer_scopes y
  | tensor_times x _ => layer_scopes x
  | tf_tanh x => layer_scopes x
  | tf_reshape tensor shape =>
      layer_scopes tensor ++
      match shape with
      | ShapeList _ => []
      | ShapeTensor s => layer_scopes s
      end
  end.

(** The scopes, below the caller's [scope], that the nested
    [with tf.variable_scope(...)] blocks of the generator and of
    [cyclegan_upsample] open around layers. *)
Definition generator_scopes (scope : list string) (num_resnet_blocks : Z)
    : list (list string) :=
  ([(scope ++ ["input"])%list;
    (scope ++ ["encoder"])%list;
    (scope ++ ["encoder"; "decoder"; "decoder1"; "upconv"])%list;
    (scope ++ ["encoder"; "decoder"; "decoder2"; "upconv"])%list;
    (scope ++ ["encoder"; "output"])%list]
   ++ ((λ i : Z,
          (scope ++ ["encoder"; "residual_blocks"; "block_" +:+ pretty i])%list)
         <$> seqZ 0 num_resnet_blocks))%list.

(** * Proofs *)

(** ** The residual loop *)

Lemma residual_block_step_spec scope num_filters kernel_size net end_points i :
  residual_block_step (scope ++ ["encoder"; "residual_blocks"])
    (kernel_paddings kernel_size) num_filters (kernel_list kernel_size)
    (net, end_points) i
  = (residual_block scope num_filters kernel_size i net,
     <[resnet_block_key i :=
         residual_block scope num_filters kernel_size i net]> end_points).
Proof.
  unfold residual_block_step, residual_block, residual_path, block_scope,
    variable_scope, resnet_block_key, _conv2d, _instance_norm.
  rewrite <- !app_assoc. reflexivity.
Qed.

Lemma residual_loop_nat scope num_filters kernel_size (k : nat) x end_points :
  fold_left
    (residual_block_step (scope ++ ["encoder"; "residual_blocks"])
       (kernel_paddings kernel_size) num_filters (kernel_list kernel_size))
    (seqZ 0 (Z.of_nat k)) (x, end_points)
  = (residual_blocks scope num_filters kernel_size k x,
     record_blocks scope num_filters kernel_size k x end_points).
Proof.
  induction k as [|k IH].
  - reflexivity.
  - rewrite seqZ_S, fold_left_app, IH. simpl fold_left.
    rewrite Z.add_0_l. apply residual_block_step_spec.
Qed.

Lemma residual_loop scope num_filters kernel_size (n : Z) x end_points :
  fold_left
    (residual_block_step (scope ++ ["encoder"; "residual_blocks"])
       (kernel_paddings kernel_size) num_filters (kernel_list kernel_size))
    (seqZ 0 n) (x, end_points)
  = (residual_blocks scope num_filters kernel_size (Z.to_nat n) x,
     record_blocks scope num_filters kernel_size (Z.to_nat n) x end_points).
Proof.
  destruct (decide (0 ≤ n)) as [Hn|Hn].
  - rewrite <- (Z2Nat.id n) at 1 by done. apply residual_loop_nat.
  - rewrite seqZ_nil by lia.
    replace (Z.to_nat n) with O by lia. reflexivity.
Qed.

(** ** The height/width check *)

Lemma check_rejects d :
  truthy d && not_multiple_of_4 d = true ↔ rejected_dimension d.
Proof.
  unfold rejected_dimension. destruct d as [n|]; simpl.
  - rewrite andb_true_iff, !negb_true_iff, !Z.eqb_neq.
    split; [intros []; eauto|]. intros (m & [= <-] & ? & ?). done.
  - split; [done|]. intros (? & ? & _). done.
Qed.

Lemma check_accepts d :
  truthy d && not_multiple_of_4 d = false ↔ ¬ rejected_dimension d.
Proof. rewrite <- check_rejects. destruct (_ && _); naive_solver. Qed.

(** What [cyclegan_generator_resnet] computes: the check, the array of
    paddings, then the stages. *)
Lemma generator_unfold static_shape scope images n num_filters upsample_fn
    kernel_size slope :
  cyclegan_generator_resnet static_shape scope images n num_filters
    upsample_fn kernel_size slope
  = if truthy (dim_height (static_shape images))
       && not_multiple_of_4 (dim_height (static_shape images))
    then Raise (ValueError "The input height must be a multiple of 4.")
    else if truthy (dim_width (static_shape images))
            && not_multiple_of_4 (dim_width (static_shape images))
    then Raise (ValueError "The input width must be a multiple of 4.")
    else match np_array_int32 (kernel_paddings kernel_size) with
         | Ok _ =>
             generator_stages static_shape scope images n num_filters
               upsample_fn kernel_size slope
         | Raise e => Raise e
         end.
Proof.
  unfold cyclegan_generator_resnet, generator_stages.
  destruct (truthy (dim_height _) && _); [done|].
  destruct (truthy (dim_width _) && _); [done|].
  assert (Hloop := residual_loop scope num_filters kernel_size n).
  unfold variable_scope.
  replace (match kernel_size with KInt k => KList k k | KList _ _ => kernel_size end)
    with (kernel_list kernel_size) by (by destruct kernel_size).
  replace ([(0, 0);
     ((match kernel_list kernel_size with KInt k => k | KList h _ => h end - 1) `div` 2,
      match kernel_list kernel_size with KInt k => k | KList h _ => h end `div` 2);
     ((match kernel_list kernel_size with KInt k => k | KList _ w => w end - 1) `div` 2,
      match kernel_list kernel_size with KInt k => k | KList _ w => w end `div` 2);
     (0, 0)]) with (kernel_paddings kernel_size) by (by destruct kernel_size).
  unfold np_array_int32. destruct (forallb _ _); [|done].
  cbn [mbind result_bind].
  rewrite <- !app_assoc. simpl app.
  unfold _conv2d, _instance_norm.
  change (tf_nn_relu (tfgan_features_instance_norm (scope ++ ["input"])
    (tf_layers_conv2d (scope ++ ["input"])
       (tf_pad images [(0, 0); (3, 3); (3, 3); (0, 0)] "REFLECT")
       (Some num_filters) (KInt 7) 1 "VALID"
       (random_normal_initializer 0 (2 # 100)) false) true true (1 # 1000)))
    with (input_stage scope num_filters images).
  set (e0 := input_stage scope num_filters images).
  change (tf_nn_relu (tfgan_features_instance_norm (scope ++ ["encoder"])
    (tf_layers_conv2d (scope ++ ["encoder"])
       (tf_pad e0 (kernel_paddings kernel_size) "REFLECT")
       (Some (num_filters * 2)) (kernel_list kernel_size) 2 "VALID"
       (random_normal_initializer 0 (2 # 100)) false) true true (1 # 1000)))
    with (encoder_stage scope (num_filters * 2) kernel_size e0).
  set (e1 := encoder_stage scope (num_filters * 2) kernel_size e0).
  change (tf_nn_relu (tfgan_features_instance_norm (scope ++ ["encoder"])
    (tf_layers_conv2d (scope ++ ["encoder"])
       (tf_pad e1 (kernel_paddings kernel_size) "REFLECT")
       (Some (num_filters * 4)) (kernel_list kernel_size) 2 "VALID"
       (random_normal_initializer 0 (2 # 100)) false) true true (1 # 1000)))
    with (encoder_stage scope (num_filters * 4) kernel_size e1).
  set (e2 := encoder_stage scope (num_filters * 4) kernel_size e1).
  rewrite Hloop.
  unfold decoder_scope.
  destruct (upsample_fn _ _ _ _) as [d1|]; [|done]. simpl.
  destruct (upsample_fn _ _ _ _) as [d2|]; [|done]. simpl.
  rewrite lookup_insert_eq. reflexivity.
Qed.

(** A call that returns has passed the check and run every stage. *)
Lemma generator_returns static_shape scope images n num_filters upsample_fn
    kernel_size slope predictions end_points :
  cyclegan_generator_resnet static_shape scope images n num_filters
    upsample_fn kernel_size slope = Ok (predictions, end_points) →
  ¬ rejected_dimension (dim_height (static_shape images))
  ∧ ¬ rejected_dimension (dim_width (static_shape images))
  ∧ ∃ decoder1 decoder2,
      let encoder_0 := input_stage scope num_filters images in
      let encoder_1 :=
        encoder_stage scope (num_filters * 2) kernel_size encoder_0 in
      let encoder_2 :=
        encoder_stage scope (num_filters * 4) kernel_size encoder_1 in
      let logits :=
        tf_reshape
          (output_conv scope (dim_channels (static_shape images)) decoder2)
          (shape_of_images static_shape images) in
      upsample_fn (decoder_scope scope "decoder1")
        (residual_blocks scope num_filters kernel_size (Z.to_nat n) encoder_2)
        (num_filters * 2) (2, 2) = Ok decoder1
      ∧ upsample_fn (decoder_scope scope "decoder2") decoder1 num_filters
          (2, 2) = Ok decoder2
      ∧ predictions = tensor_add (tf_tanh logits) (tensor_times logits slope)
      ∧ end_points
        = <["predictions" := predictions]> (<["logits" := logits]>
          (<["decoder2" := decoder2]> (<["decoder1" := decoder1]>
          (record_blocks scope num_filters kernel_size (Z.to_nat n) encoder_2
          (<["encoder_2" := encoder_2]> (<["encoder_1" := encoder_1]>
          (<["encoder_0" := encoder_0]> ∅))))))).
Proof.
  intros Hgen. rewrite generator_unfold in Hgen.
  destruct (truthy (dim_height _) && _) eqn:Hh; [done|].
  destruct (truthy (dim_width _) && _) eqn:Hw; [done|].
  apply check_accepts in Hh. apply check_accepts in Hw.
  destruct (np_array_int32 _); [|done].
  unfold generator_stages in Hgen.
  destruct (upsample_fn _ _ _ _) as [d1|] eqn:Hup1; [|done].
  cbn [mbind result_bind] in Hgen.
  destruct (upsample_fn _ d1 _ _) as [d2|] eqn:Hup2; [|done].
  cbn [mbind result_bind] in Hgen.
  injection Hgen as <- <-.
  split; [done|]. split; [done|]. exists d1, d2. cbn zeta. auto.
Qed.

(** ** The recorded end points *)

#[global] Instance resnet_block_key_inj : Inj (=) (=) resnet_block_key.
Proof.
  intros i j Heq. unfold resnet_block_key in Heq.
  apply (inj (String.app _)) in Heq. by apply (inj pretty).
Qed.

Lemma record_blocks_lookup scope num_filters kernel_size k x end_points i :
  (i < k)%nat →
  record_blocks scope num_filters kernel_size k x end_points
    !! resnet_block_key (Z.of_nat i)
  = Some (residual_blocks scope num_filters kernel_size (S i) x).
Proof.
  induction k as [|k IH]; [lia|]. intros Hi.
  cbn [record_blocks].
  destruct (decide (i = k)) as [->|Hne].
  - apply lookup_insert_eq.
  - rewrite lookup_insert_ne; [apply IH; lia|].
    intros Heq%(inj resnet_block_key). lia.
Qed.

Lemma record_blocks_lookup_other scope num_filters kernel_size k x end_points s :
  (∀ i, s ≠ resnet_block_key i) →
  record_blocks scope num_filters kernel_size k x end_points !! s
  = end_points !! s.
Proof.
  intros Hs. induction k as [|k IH]; [done|].
  cbn [record_blocks]. rewrite lookup_insert_ne; [done|].
  intros Heq. by apply (Hs (Z.of_nat k)).
Qed.

Local Ltac not_block_key :=
  let i := fresh in intros i; unfold resnet_block_key; simpl; discriminate.

(** ** The upsampling function *)

Lemma known_methods_cases method :
  method ∈ known_methods ↔
  method = "nn_upsample_conv" ∨ method = "bilinear_upsample_conv"
  ∨ method = "conv2d_transpose".
Proof.
  unfold known_methods. rewrite !elem_of_cons, elem_of_nil. tauto.
Qed.

Lemma cyclegan_upsample_unknown scope net num_outputs strides method pad_mode :
  method ∉ known_methods →
  cyclegan_upsample scope net num_outputs strides method pad_mode
  = Raise (ValueError ("Unknown method: [" +:+ method +:+ "]")).
Proof.
  intros Hm. unfold cyclegan_upsample.
  destruct (String.eqb_spec method "nn_upsample_conv") as [->|_].
  { exfalso. apply Hm. apply known_methods_cases. auto. }
  destruct (String.eqb_spec method "bilinear_upsample_conv") as [->|_].
  { exfalso. apply Hm. apply known_methods_cases. auto. }
  destruct (String.eqb_spec method "conv2d_transpose") as [->|_].
  { exfalso. apply Hm. apply known_methods_cases. auto. }
  reflexivity.
Qed.

(** With a recognised method the outcome is the method's chain of
    operations, or the [ValueError] of [tf.pad] on a padding mode it does not
    know. *)
Lemma cyclegan_upsample_known scope net num_outputs strides method pad_mode :
  method ∈ known_methods →
  cyclegan_upsample scope net num_outputs strides method pad_mode
  = if String.eqb method "conv2d_transpose" || bool_decide (is_Some (pad_mode_kind pad_mode))
    then Ok (upsampled scope method pad_mode num_outputs strides net)
    else Raise (ValueError ("Unknown padding mode: " +:+ upper pad_mode)).
Proof.
  intros [->|[->| ->]]%known_methods_cases;
    unfold cyclegan_upsample, upsampled, tf_pad_call; cbn [String.eqb Ascii.eqb Bool.eqb orb];
    try reflexivity;
    destruct (pad_mode_kind pad_mode); reflexivity.
Qed.

Lemma cyclegan_upsample_returns scope net num_outputs strides method pad_mode t :
  cyclegan_upsample scope net num_outputs strides method pad_mode = Ok t →
  method ∈ known_methods
  ∧ (method = "conv2d_transpose" ∨ is_Some (pad_mode_kind pad_mode))
  ∧ t = upsampled scope method pad_mode num_outputs strides net.
Proof.
  intros Hup.
  destruct (decide (method ∈ known_methods)) as [Hm|Hm];
    [|by rewrite cyclegan_upsample_unknown in Hup].
  split; [done|]. rewrite cyclegan_upsample_known in Hup by done.
  destruct (String.eqb_spec method "conv2d_transpose") as [->|_].
  - injection Hup as <-. auto.
  - cbn [orb] in Hup. case_bool_decide; [|done]. injection Hup as <-. auto.
Qed.

Lemma cyclegan_upsample_calls_result scope net num_outputs strides method
    pad_mode :
  (cyclegan_upsample_calls scope net num_outputs strides method pad_mode).2
  = cyclegan_upsample scope net num_outputs strides method pad_mode.
Proof.
  unfold cyclegan_upsample_calls, cyclegan_upsample, tf_pad_call.
  repeat case_match; reflexivity.
Qed.

(** ** The generator *)

(** C1 (fixed topology).  Whenever the call returns, in particular for
    images whose static height and width are multiples of 4 and
    [num_resnet_blocks >= 0], the returned predictions and the recorded
    logits are built by, in this order: the reflect-padded 7x7 VALID
    convolution of the input stage with instance normalization and ReLU; the
    two stride-2 encoder stages (reflect padding, convolution, instance
    normalization, ReLU) with [2 * num_filters] and [4 * num_filters]
    filters; exactly [num_resnet_blocks] residual blocks; [upsample_fn] with
    [num_filters * 2] and then [num_filters] outputs and strides [(2, 2)];
    and the reflect-padded 7x7 output convolution, whose result, given the
    shape of [images], is the logits.  Nothing else lies between the images
    and the output. *)
Theorem generator_stage_order static_shape scope images num_resnet_blocks
    num_filters upsample_fn kernel_size tanh_linear_slope predictions
    end_points :
  cyclegan_generator_resnet static_shape scope images num_resnet_blocks
    num_filters upsample_fn kernel_size tanh_linear_slope
  = Ok (predictions, end_points) →
  ∃ decoder1 decoder2,
    upsample_fn (decoder_scope scope "decoder1")
      (residual_blocks scope num_filters kernel_size
         (Z.to_nat num_resnet_blocks)
         (encoder_stage scope (num_filters * 4) kernel_size
            (encoder_stage scope (num_filters * 2) kernel_size
               (input_stage scope num_filters images))))
      (num_filters * 2) (2, 2) = Ok decoder1
    ∧ upsample_fn (decoder_scope scope "decoder2") decoder1 num_filters (2, 2)
      = Ok decoder2
    ∧ let logits :=
        tf_reshape
          (output_conv scope (dim_channels (static_shape images)) decoder2)
          (shape_of_images static_shape images) in
      end_points !! "logits" = Some logits
      ∧ predictions
        = tensor_add (tf_tanh logits) (tensor_times logits tanh_linear_slope).
Proof.
  intros Hgen.
  apply generator_returns in Hgen
    as (_ & _ & d1 & d2 & Hup1 & Hup2 & Hpred & Hep).
  exists d1, d2. split; [exact Hup1|]. split; [exact Hup2|].
  cbn zeta. split; [|exact Hpred].
  rewrite Hep. rewrite lookup_insert_ne by done. apply lookup_insert_eq.
Qed.

Lemma generator_stage_order_witness :
  let static_shape := λ _ : Tensor, mkShape (Some 1) (Some 8) (Some 12) (Some 3) in
  let images := placeholder "images" in
  ∃ predictions end_points decoder1 decoder2,
    cyclegan_generator_resnet static_shape [] images 2 64 default_upsample_fn
      (KInt 3) 0 = Ok (predictions, end_points)
    ∧ default_upsample_fn (decoder_scope [] "decoder1")
        (residual_blocks [] 64 (KInt 3) 2
           (encoder_stage [] (64 * 4) (KInt 3)
              (encoder_stage [] (64 * 2) (KInt 3) (input_stage [] 64 images))))
        (64 * 2) (2, 2) = Ok decoder1
    ∧ default_upsample_fn (decoder_scope [] "decoder2") decoder1 64 (2, 2)
      = Ok decoder2
    ∧ end_points !! "logits"
      = Some (tf_reshape (output_conv [] (Some 3) decoder2)
                (ShapeList [Some 1; Some 8; Some 12; Some 3])).
Proof.
  intros static_shape images.
  assert (∃ r, cyclegan_generator_resnet static_shape [] images 2 64
              default_upsample_fn (KInt 3) 0 = Ok r)
    as [[predictions end_points] Hgen]
    by (eexists; rewrite generator_unfold; reflexivity).
  exists predictions, end_points.
  destruct (generator_stage_order static_shape [] images 2 64
              default_upsample_fn (KInt 3) 0 predictions end_points Hgen)
    as (decoder1 & decoder2 & Hup1 & Hup2 & Hlogits & _).
  exists decoder1, decoder2. auto.
Defined.

(** C2 (residual blocks).  Whenever the generator returns, for every block
    index [0 <= i < num_resnet_blocks] the entry [resnet_block_i] of
    [end_points] is [input + f(input)], where [input] is what the block
    receives (the recorded [encoder_2] for block 0, the recorded output of
    block [i - 1] otherwise) and [f] is the block's reflect-pad, conv2d,
    instance-norm, ReLU, reflect-pad, conv2d, instance-norm path. *)
Theorem residual_block_output static_shape scope images num_resnet_blocks
    num_filters upsample_fn kernel_size tanh_linear_slope predictions
    end_points i :
  cyclegan_generator_resnet static_shape scope images num_resnet_blocks
    num_filters upsample_fn kernel_size tanh_linear_slope
  = Ok (predictions, end_points) →
  0 ≤ i < num_resnet_blocks →
  ∃ input,
    (if decide (i = 0) then end_points !! "encoder_2"
     else end_points !! resnet_block_key (i - 1)) = Some input
    ∧ end_points !! resnet_block_key i
      = Some (tensor_add input
                (residual_path scope num_filters kernel_size i input)).
Proof.
  intros Hgen Hi.
  apply generator_returns in Hgen as (_ & _ & d1 & d2 & _ & _ & _ & ->).
  set (e2 := encoder_stage scope (num_filters * 4) kernel_size _).
  exists (residual_blocks scope num_filters kernel_size (Z.to_nat i) e2).
  assert (∀ (j : nat) (m : gmap string Tensor) p l d1' d2',
    <["predictions" := p]> (<["logits" := l]> (<["decoder2" := d2']>
      (<["decoder1" := d1']> m))) !! resnet_block_key (Z.of_nat j)
    = m !! resnet_block_key (Z.of_nat j)) as Hskip.
  { intros. rewrite !lookup_insert_ne; [done|..];
      unfold resnet_block_key; simpl; discriminate. }
  split.
  - destruct (decide (i = 0)) as [->|Hi0].
    + rewrite !lookup_insert_ne by done.
      rewrite record_blocks_lookup_other by not_block_key.
      by rewrite lookup_insert_eq.
    + replace (i - 1) with (Z.of_nat (Z.to_nat i - 1)) by lia.
      rewrite Hskip, record_blocks_lookup by lia.
      by replace (S (Z.to_nat i - 1)) with (Z.to_nat i) by lia.
  - replace i with (Z.of_nat (Z.to_nat i)) at 1 3 by lia.
    rewrite Hskip, record_blocks_lookup by lia. reflexivity.
Qed.

Lemma residual_block_output_witness :
  let static_shape := λ _ : Tensor, mkShape None (Some 8) (Some 8) (Some 3) in
  ∃ predictions end_points input,
    cyclegan_generator_resnet static_shape [] (placeholder "images") 3 64
      default_upsample_fn (KInt 3) 0 = Ok (predictions, end_points)
    ∧ end_points !! resnet_block_key 1 = Some input
    ∧ end_points !! resnet_block_key 2
      = Some (tensor_add input (residual_path [] 64 (KInt 3) 2 input)).
Proof.
  intros static_shape.
  assert (∃ r, cyclegan_generator_resnet static_shape [] (placeholder "images") 3
              64 default_upsample_fn (KInt 3) 0 = Ok r)
    as [[predictions end_points] Hgen]
    by (eexists; rewrite generator_unfold; reflexivity).
  exists predictions, end_points.
  destruct (residual_block_output static_shape [] (placeholder "images") 3 64
              default_upsample_fn (KInt 3) 0 predictions end_points 2 Hgen)
    as (input & Hin & Hout); [lia|].
  exists input. auto.
Defined.

(** C3, as the code has it.  The check of lines 158 to 163 raises exactly on
    a dimension that is statically known, nonzero and not a multiple of 4: an
    unknown ([None]) or zero dimension passes it.  A rejected height or width
    makes the call raise [ValueError]; a call that returns had neither
    rejected.  And the check's two errors come from the check alone: unless
    [upsample_fn] raises the very same error, the call raises the height
    error exactly on a rejected height, and the width error exactly on a
    rejected width next to an accepted height.  Nothing is said here about
    other [ValueError]s, which [upsample_fn] and the libraries may raise once
    the check has passed. *)
Theorem dimension_check static_shape scope images num_resnet_blocks
    num_filters upsample_fn kernel_size tanh_linear_slope :
  let height := dim_height (static_shape images) in
  let width := dim_width (static_shape images) in
  let call :=
    cyclegan_generator_resnet static_shape scope images num_resnet_blocks
      num_filters upsample_fn kernel_size tanh_linear_slope in
  (∀ d, truthy d && not_multiple_of_4 d = true ↔ rejected_dimension d)
  ∧ (∀ d, d = None ∨ d = Some 0 → truthy d && not_multiple_of_4 d = false)
  ∧ (rejected_dimension height ∨ rejected_dimension width →
     is_ValueError call)
  ∧ (∀ predictions end_points,
       call = Ok (predictions, end_points) →
       ¬ rejected_dimension height ∧ ¬ rejected_dimension width)
  ∧ ((∀ sc net num_outputs strides,
        upsample_fn sc net num_outputs strides
        ≠ Raise (ValueError "The input height must be a multiple of 4.")) →
     (call = Raise (ValueError "The input height must be a multiple of 4.")
      ↔ rejected_dimension height))
  ∧ ((∀ sc net num_outputs strides,
        upsample_fn sc net num_outputs strides
        ≠ Raise (ValueError "The input width must be a multiple of 4.")) →
     (call = Raise (ValueError "The input width must be a multiple of 4.")
      ↔ ¬ rejected_dimension height ∧ rejected_dimension width)).
Proof.
  intros height width call.
  assert (∀ msg,
    (∀ sc net num_outputs strides,
       upsample_fn sc net num_outputs strides ≠ Raise (ValueError msg)) →
    match np_array_int32 (kernel_paddings kernel_size) with
    | Ok _ =>
        generator_stages static_shape scope images num_resnet_blocks
          num_filters upsample_fn kernel_size tanh_linear_slope
    | Raise e => Raise e
    end ≠ Raise (ValueError msg)) as Hstages.
  { intros msg Hup. unfold np_array_int32.
    destruct (forallb _ _); [|discriminate].
    unfold generator_stages.
    destruct (upsample_fn _ _ _ _) as [d1|e1] eqn:H1; cbn [mbind result_bind].
    - destruct (upsample_fn _ d1 _ _) as [d2|e2] eqn:H2;
        cbn [mbind result_bind]; [discriminate|].
      intros [= ->]. by apply Hup in H2.
    - intros [= ->]. by apply Hup in H1. }
  split; [apply check_rejects|].
  split; [by intros d [-> | ->]|].
  unfold call. rewrite generator_unfold. fold height width.
  destruct (truthy height && not_multiple_of_4 height) eqn:Hh.
  { apply check_rejects in Hh.
    split; [intros _; by eexists|]. split; [done|].
    split; [done|]. intros _. split; [done|]. by intros []. }
  apply check_accepts in Hh.
  destruct (truthy width && not_multiple_of_4 width) eqn:Hw.
  { apply check_rejects in Hw.
    split; [intros _; by eexists|]. split; [done|].
    split; [intros _; split; [done|tauto]|]. done. }
  apply check_accepts in Hw.
  split; [tauto|]. split; [done|].
  split; intros Hup; (split; [|tauto]); intros Hraise;
    by apply Hstages in Hraise.
Qed.

Lemma dimension_check_witness :
  let static_shape := λ _ : Tensor, mkShape None (Some 0) (Some 10) (Some 3) in
  is_ValueError
    (cyclegan_generator_resnet static_shape [] (placeholder "images") 6 64
       default_upsample_fn (KInt 3) 0)
  ∧ (cyclegan_generator_resnet static_shape [] (placeholder "images") 6 64
       default_upsample_fn (KInt 3) 0
     = Raise (ValueError "The input height must be a multiple of 4.")
     ↔ rejected_dimension (Some 0)).
Proof.
  intros static_shape.
  pose proof (dimension_check static_shape [] (placeholder "images") 6 64
                default_upsample_fn (KInt 3) 0)
    as (_ & _ & Hraises & _ & Hheight & _).
  split.
  - apply Hraises. right. exists 10. repeat split; [lia|].
    vm_compute. discriminate.
  - apply Hheight. intros sc net num_outputs strides. discriminate.
Defined.

(** A [ValueError] that does not come from the check: the height and width
    are multiples of 4, and [upsample_fn] is [cyclegan_upsample] called with a
    method it does not know. *)
Lemma value_error_from_upsample_fn :
  let static_shape := λ _ : Tensor, mkShape (Some 1) (Some 8) (Some 8) (Some 3) in
  let images := placeholder "images" in
  let upsample_fn := λ scope net num_outputs strides,
    cyclegan_upsample scope net num_outputs strides "deconv" "REFLECT" in
  is_ValueError
    (cyclegan_generator_resnet static_shape [] images 6 64 upsample_fn
       (KInt 3) 0)
  ∧ ¬ (rejected_dimension (dim_height (static_shape images))
       ∨ rejected_dimension (dim_width (static_shape images))).
Proof.
  split.
  - eexists. rewrite generator_unfold. reflexivity.
  - simpl. intros [(n & [= <-] & _ & Hn)|(n & [= <-] & _ & Hn)]; by apply Hn.
Qed.

(** ** Shapes along the topology *)

Local Ltac div_lia := Z.div_mod_to_equations; lia.

(** Discharges a guard of the shape bookkeeping from arithmetic facts. *)
Local Ltac guard_true :=
  repeat (apply andb_true_intro; split);
  first [ reflexivity | apply Z.leb_le; lia | apply Z.ltb_lt; lia ].

Lemma conv_same_length k d :
  conv_output_length ((k - 1) `div` 2 + d + k `div` 2) k 1 = d.
Proof. unfold conv_output_length. rewrite Z.div_1_r. div_lia. Qed.

Lemma conv_half_length k d :
  conv_output_length ((k - 1) `div` 2 + d + k `div` 2) k 2 = (d + 1) `div` 2.
Proof. unfold conv_output_length. div_lia. Qed.

Lemma conv_7_length d : conv_output_length (3 + d + 3) 7 1 = d.
Proof. unfold conv_output_length. rewrite Z.div_1_r. lia. Qed.

Lemma conv_3_length d : conv_output_length (1 + d + 1) 3 1 = d.
Proof. unfold conv_output_length. rewrite Z.div_1_r. lia. Qed.

Lemma deconv_slice_length d :
  0 ≤ d → slice_length (deconv_output_length d 3 2) (SliceFrom 1) = 2 * d.
Proof. unfold slice_length, deconv_output_length. lia. Qed.

Lemma pad_mode_kind_REFLECT : pad_mode_kind "REFLECT" = Some REFLECT.
Proof. reflexivity. Qed.

Lemma pads_ok_image kind b h w c pad_top pad_bottom pad_left pad_right :
  1 ≤ b → 1 ≤ c →
  0 ≤ pad_top < h → 0 ≤ pad_bottom < h →
  0 ≤ pad_left < w → 0 ≤ pad_right < w →
  pads_ok kind [b; h; w; c]
    [(0, 0); (pad_top, pad_bottom); (pad_left, pad_right); (0, 0)] = true.
Proof.
  intros. unfold pads_ok, pad_ok. cbn [fst snd].
  destruct kind; guard_true.
Qed.

Lemma conv_ok_true h w c filters kernel_size strides :
  1 ≤ c → 1 ≤ filters → 1 ≤ strides →
  1 ≤ (kernel_hw kernel_size).1 ≤ h → 1 ≤ (kernel_hw kernel_size).2 ≤ w →
  conv_ok h w c filters kernel_size strides = true.
Proof. intros. unfold conv_ok. guard_true. Qed.

Lemma broadcast_aligned_same dims : broadcast_aligned dims dims = Some dims.
Proof.
  induction dims as [|d dims IH]; [done|].
  cbn [broadcast_aligned]. unfold broadcast_dim. rewrite Z.eqb_refl, IH. done.
Qed.

Lemma broadcast_same dims : broadcast dims dims = Some dims.
Proof.
  unfold broadcast. rewrite broadcast_aligned_same. cbn.
  by rewrite reverse_involutive.
Qed.

Section Shapes.

Variable feed : gmap string (list Z).

(** A reflect padding followed by a VALID convolution. *)
Lemma infer_reflect_conv scope x filters kernel_size strides initializer bias
    b h w c pad_top pad_bottom pad_left pad_right :
  infer feed x = Some (VShape [b; h; w; c]) →
  1 ≤ b → 1 ≤ c → 1 ≤ filters → 1 ≤ strides →
  0 ≤ pad_top < h → 0 ≤ pad_bottom < h →
  0 ≤ pad_left < w → 0 ≤ pad_right < w →
  1 ≤ (kernel_hw kernel_size).1 ≤ pad_top + h + pad_bottom →
  1 ≤ (kernel_hw kernel_size).2 ≤ pad_left + w + pad_right →
  infer feed
    (tf_layers_conv2d scope
       (tf_pad x [(0, 0); (pad_top, pad_bottom); (pad_left, pad_right); (0, 0)]
          "REFLECT")
       (Some filters) kernel_size strides "VALID" initializer bias)
  = Some (VShape [b;
       conv_output_length (pad_top + h + pad_bottom) (kernel_hw kernel_size).1 strides;
       conv_output_length (pad_left + w + pad_right) (kernel_hw kernel_size).2 strides;
       filters]).
Proof.
  intros Hx ? ? ? ? ? ? ? ? ? ?. cbn [infer]. rewrite Hx, pad_mode_kind_REFLECT.
  rewrite pads_ok_image by done. cbn [zip_with fst snd].
  rewrite Z.add_0_l, !Z.add_0_r.
  rewrite conv_ok_true by done. reflexivity.
Qed.

(** The same two operations, when nothing is known about their operands:
    whatever shape comes out is the one given by the sizes. *)
Lemma infer_reflect_conv_at_most scope x filters kernel_size strides
    initializer bias b h w c pad_top pad_bottom pad_left pad_right :
  at_most (infer feed x) [b; h; w; c] →
  at_most
    (infer feed
       (tf_layers_conv2d scope
          (tf_pad x [(0, 0); (pad_top, pad_bottom); (pad_left, pad_right); (0, 0)]
             "REFLECT")
          (Some filters) kernel_size strides "VALID" initializer bias))
    [b;
     conv_output_length (pad_top + h + pad_bottom) (kernel_hw kernel_size).1 strides;
     conv_output_length (pad_left + w + pad_right) (kernel_hw kernel_size).2 strides;
     filters].
Proof.
  intros Hx v Hv. cbn [infer] in Hv.
  destruct (infer feed x) as [[dims| |]|]; try discriminate.
  pose proof (Hx _ eq_refl) as [= ->].
  rewrite pad_mode_kind_REFLECT in Hv.
  destruct (pads_ok _ _ _); [|discriminate].
  cbn [zip_with fst snd] in Hv. rewrite Z.add_0_l, !Z.add_0_r in Hv.
  destruct (_ && _); [|discriminate]. by injection Hv as <-.
Qed.

Lemma infer_norm scope x center scale epsilon dims :
  infer feed x = Some (VShape dims) →
  infer feed (tfgan_features_instance_norm scope x center scale epsilon)
  = Some (VShape dims).
Proof. intros Hx. cbn [infer]. by rewrite Hx. Qed.

Lemma infer_relu x dims :
  infer feed x = Some (VShape dims) →
  infer feed (tf_nn_relu x) = Some (VShape dims).
Proof. intros Hx. cbn [infer]. by rewrite Hx. Qed.

Lemma infer_norm_at_most scope x center scale epsilon dims :
  at_most (infer feed x) dims →
  at_most (infer feed (tfgan_features_instance_norm scope x center scale epsilon))
    dims.
Proof.
  intros Hx v Hv. cbn [infer] in Hv.
  destruct (infer feed x) as [[dims'| |]|]; try discriminate.
  pose proof (Hx _ eq_refl) as [= ->]. by injection Hv as <-.
Qed.

Lemma infer_relu_at_most x dims :
  at_most (infer feed x) dims → at_most (infer feed (tf_nn_relu x)) dims.
Proof.
  intros Hx v Hv. cbn [infer] in Hv.
  destruct (infer feed x) as [[dims'| |]|]; try discriminate.
  pose proof (Hx _ eq_refl) as [= ->]. by injection Hv as <-.
Qed.

Lemma infer_input_stage scope num_filters x b h w c :
  infer feed x = Some (VShape [b; h; w; c]) →
  1 ≤ b → 1 ≤ c → 1 ≤ num_filters → 4 ≤ h → 4 ≤ w →
  infer feed (input_stage scope num_filters x)
  = Some (VShape [b; h; w; num_filters]).
Proof.
  intros Hx ? ? ? ? ?. unfold input_stage.
  apply infer_relu, infer_norm.
  rewrite (infer_reflect_conv _ _ _ _ _ _ _ _ _ _ _ _ _ _ _ Hx)
    by (cbn [kernel_hw fst snd]; lia).
  cbn [kernel_hw fst snd]. by rewrite !conv_7_length.
Qed.

Lemma infer_input_stage_at_most scope num_filters x b h w c :
  at_most (infer feed x) [b; h; w; c] →
  at_most (infer feed (input_stage scope num_filters x)) [b; h; w; num_filters].
Proof.
  intros Hx. unfold input_stage.
  apply infer_relu_at_most, infer_norm_at_most.
  pose proof (infer_reflect_conv_at_most
                (scope ++ ["input"]) x num_filters (KInt 7) 1
                (random_normal_initializer 0 (2 # 100)) false
                _ _ _ _ 3 3 3 3 Hx) as H.
  cbn [kernel_hw fst snd] in H. by rewrite !conv_7_length in H.
Qed.

(** The reflect paddings of a [kernel_size] window fit a dimension [d] when
    [kernel // 2 < d]. *)
Lemma infer_encoder_stage scope filters kernel_size x b h w c :
  infer feed x = Some (VShape [b; h; w; c]) →
  1 ≤ b → 1 ≤ c → 1 ≤ filters →
  1 ≤ (kernel_hw kernel_size).1 → (kernel_hw kernel_size).1 `div` 2 < h →
  1 ≤ (kernel_hw kernel_size).2 → (kernel_hw kernel_size).2 `div` 2 < w →
  infer feed (encoder_stage scope filters kernel_size x)
  = Some (VShape [b; (h + 1) `div` 2; (w + 1) `div` 2; filters]).
Proof.
  intros Hx ? ? ? ? ? ? ?. unfold encoder_stage.
  apply infer_relu, infer_norm.
  destruct kernel_size as [k|kh kw];
    cbn [kernel_paddings kernel_list kernel_hw fst snd] in *;
    rewrite (infer_reflect_conv _ _ _ _ _ _ _ _ _ _ _ _ _ _ _ Hx)
      by (cbn [kernel_hw fst snd]; div_lia);
    cbn [kernel_hw fst snd]; by rewrite !conv_half_length.
Qed.

Lemma infer_encoder_stage_at_most scope filters kernel_size x b h w c :
  at_most (infer feed x) [b; h; w; c] →
  at_most (infer feed (encoder_stage scope filters kernel_size x))
    [b; (h + 1) `div` 2; (w + 1) `div` 2; filters].
Proof.
  intros Hx. unfold encoder_stage.
  apply infer_relu_at_most, infer_norm_at_most.
  destruct kernel_size as [k|kh kw];
    cbn [kernel_paddings kernel_list kernel_hw fst snd].
  - pose proof (infer_reflect_conv_at_most
                  (scope ++ ["encoder"]) x filters (KList k k) 2
                  (random_normal_initializer 0 (2 # 100)) false
                  _ _ _ _ ((k - 1) `div` 2) (k `div` 2)
                  ((k - 1) `div` 2) (k `div` 2) Hx) as H.
    cbn [kernel_hw fst snd] in H. rewrite !conv_half_length in H. exact H.
  - pose proof (infer_reflect_conv_at_most
                  (scope ++ ["encoder"]) x filters (KList kh kw) 2
                  (random_normal_initializer 0 (2 # 100)) false
                  _ _ _ _ ((kh - 1) `div` 2) (kh `div` 2)
                  ((kw - 1) `div` 2) (kw `div` 2) Hx) as H.
    cbn [kernel_hw fst snd] in H. rewrite !conv_half_length in H. exact H.
Qed.

Lemma infer_block_conv scope num_filters kernel_size x b h w :
  infer feed x = Some (VShape [b; h; w; num_filters * 4]) →
  1 ≤ b → 1 ≤ num_filters →
  1 ≤ (kernel_hw kernel_size).1 → (kernel_hw kernel_size).1 `div` 2 < h →
  1 ≤ (kernel_hw kernel_size).2 → (kernel_hw kernel_size).2 `div` 2 < w →
  infer feed
    (tf_layers_conv2d scope
       (tf_pad x (kernel_paddings kernel_size) "REFLECT")
       (Some (num_filters * 4)) (kernel_list kernel_size) 1 "VALID"
       (random_normal_initializer 0 (2 # 100)) false)
  = Some (VShape [b; h; w; num_filters * 4]).
Proof.
  intros Hx ? ? ? ? ? ?.
  destruct kernel_size as [k|kh kw];
    cbn [kernel_paddings kernel_list kernel_hw fst snd] in *;
    rewrite (infer_reflect_conv _ _ _ _ _ _ _ _ _ _ _ _ _ _ _ Hx)
      by (cbn [kernel_hw fst snd]; div_lia);
    cbn [kernel_hw fst snd]; by rewrite !conv_same_length.
Qed.

Lemma infer_block_conv_at_most scope num_filters kernel_size x b h w c :
  at_most (infer feed x) [b; h; w; c] →
  at_most
    (infer feed
       (tf_layers_conv2d scope
          (tf_pad x (kernel_paddings kernel_size) "REFLECT")
          (Some (num_filters * 4)) (kernel_list kernel_size) 1 "VALID"
          (random_normal_initializer 0 (2 # 100)) false))
    [b; h; w; num_filters * 4].
Proof.
  intros Hx.
  destruct kernel_size as [k|kh kw];
    cbn [kernel_paddings kernel_list kernel_hw fst snd].
  - pose proof (infer_reflect_conv_at_most
                  scope x (num_filters * 4) (KList k k) 1
                  (random_normal_initializer 0 (2 # 100)) false
                  _ _ _ _ ((k - 1) `div` 2) (k `div` 2)
                  ((k - 1) `div` 2) (k `div` 2) Hx) as H.
    cbn [kernel_hw fst snd] in H. rewrite !conv_same_length in H. exact H.
  - pose proof (infer_reflect_conv_at_most
                  scope x (num_filters * 4) (KList kh kw) 1
                  (random_normal_initializer 0 (2 # 100)) false
                  _ _ _ _ ((kh - 1) `div` 2) (kh `div` 2)
                  ((kw - 1) `div` 2) (kw `div` 2) Hx) as H.
    cbn [kernel_hw fst snd] in H. rewrite !conv_same_length in H. exact H.
Qed.

Lemma infer_residual_block scope num_filters kernel_size i x b h w :
  infer feed x = Some (VShape [b; h; w; num_filters * 4]) →
  1 ≤ b → 1 ≤ num_filters →
  1 ≤ (kernel_hw kernel_size).1 → (kernel_hw kernel_size).1 `div` 2 < h →
  1 ≤ (kernel_hw kernel_size).2 → (kernel_hw kernel_size).2 `div` 2 < w →
  infer feed (residual_block scope num_filters kernel_size i x)
  = Some (VShape [b; h; w; num_filters * 4]).
Proof.
  intros Hx ? ? ? ? ? ?. unfold residual_block.
  assert (infer feed (residual_path scope num_filters kernel_size i x)
          = Some (VShape [b; h; w; num_filters * 4])) as Hpath.
  { unfold residual_path. apply infer_norm, infer_block_conv; try done.
    apply infer_relu, infer_norm. by apply infer_block_conv. }
  cbn [infer]. rewrite Hx, Hpath. by rewrite broadcast_same.
Qed.

Lemma infer_residual_block_at_most scope num_filters kernel_size i x b h w :
  at_most (infer feed x) [b; h; w; num_filters * 4] →
  at_most (infer feed (residual_block scope num_filters kernel_size i x))
    [b; h; w; num_filters * 4].
Proof.
  intros Hx. unfold residual_block.
  assert (at_most (infer feed (residual_path scope num_filters kernel_size i x))
            [b; h; w; num_filters * 4]) as Hpath.
  { unfold residual_path. apply infer_norm_at_most.
    eapply infer_block_conv_at_most.
    apply infer_relu_at_most, infer_norm_at_most.
    eapply infer_block_conv_at_most. exact Hx. }
  intros v Hv. cbn [infer] in Hv.
  destruct (infer feed x) as [[dx| |]|]; try discriminate.
  destruct (infer feed (residual_path _ _ _ _ _)) as [[dy| |]|];
    try discriminate.
  pose proof (Hx _ eq_refl) as [= ->]. pose proof (Hpath _ eq_refl) as [= ->].
  rewrite broadcast_same in Hv. by injection Hv as <-.
Qed.

Lemma infer_residual_blocks scope num_filters kernel_size n x b h w :
  infer feed x = Some (VShape [b; h; w; num_filters * 4]) →
  1 ≤ b → 1 ≤ num_filters →
  (0 < n)%nat →
  1 ≤ (kernel_hw kernel_size).1 → (kernel_hw kernel_size).1 `div` 2 < h →
  1 ≤ (kernel_hw kernel_size).2 → (kernel_hw kernel_size).2 `div` 2 < w →
  infer feed (residual_blocks scope num_filters kernel_size n x)
  = Some (VShape [b; h; w; num_filters * 4]).
Proof.
  intros Hx ? ? Hn ? ? ? ?. destruct n as [|n]; [lia|]. clear Hn.
  induction n as [|n IH]; cbn [residual_blocks] in *;
    by apply infer_residual_block.
Qed.

Lemma infer_residual_blocks_at_most scope num_filters kernel_size n x b h w :
  at_most (infer feed x) [b; h; w; num_filters * 4] →
  at_most (infer feed (residual_blocks scope num_filters kernel_size n x))
    [b; h; w; num_filters * 4].
Proof.
  intros Hx. induction n as [|n IH]; [done|].
  cbn [residual_blocks]. by apply infer_residual_block_at_most.
Qed.

(** The two resize methods: resize to [strides] times the size, pad by 1,
    3x3 VALID convolution, instance normalization, ReLU. *)
Lemma infer_resize_conv scope method pad_mode num_outputs strides net
    b h w c :
  infer feed net = Some (VShape [b; h; w; c]) →
  is_Some (pad_mode_kind pad_mode) →
  1 ≤ b → 1 ≤ h → 1 ≤ w → 1 ≤ c → 1 ≤ num_outputs →
  2 ≤ strides.1 * h → 2 ≤ strides.2 * w →
  infer feed (resize_conv scope method pad_mode num_outputs strides net)
  = Some (VShape [b; strides.1 * h; strides.2 * w; num_outputs]).
Proof.
  intros Hnet [kind Hkind] ? ? ? ? ? ? ?. unfold resize_conv.
  apply infer_relu, infer_norm. cbn [infer]. rewrite Hnet, Hkind.
  rewrite !decide_True by done.
  change (Z.to_nat 1) with 1%nat. change (Z.to_nat 2) with 2%nat.
  cbn [lookup list_lookup fmap option_fmap option_map].
  replace (resize_ok h w (strides.1 * h) (strides.2 * w)) with true
    by (symmetry; unfold resize_ok; guard_true).
  rewrite pads_ok_image by lia. cbn [zip_with fst snd].
  rewrite Z.add_0_l, !Z.add_0_r.
  rewrite conv_ok_true by (cbn [kernel_hw fst snd]; lia).
  cbn [kernel_hw fst snd andb String.eqb Ascii.eqb Bool.eqb].
  by rewrite !conv_3_length.
Qed.

Lemma infer_resize_conv_at_most scope method pad_mode num_outputs strides net
    b h w c :
  at_most (infer feed net) [b; h; w; c] →
  at_most
    (infer feed (resize_conv scope method pad_mode num_outputs strides net))
    [b; strides.1 * h; strides.2 * w; num_outputs].
Proof.
  intros Hnet. unfold resize_conv.
  apply infer_relu_at_most, infer_norm_at_most.
  intros v Hv. cbn [infer] in Hv.
  destruct (infer feed net) as [[dims| |]|]; try discriminate.
  pose proof (Hnet _ eq_refl) as [= ->].
  rewrite !decide_True in Hv by done.
  change (Z.to_nat 1) with 1%nat in Hv. change (Z.to_nat 2) with 2%nat in Hv.
  cbn [lookup list_lookup fmap option_fmap option_map] in Hv.
  destruct (resize_ok _ _ _ _); [|discriminate].
  destruct (pad_mode_kind pad_mode) as [kind|]; [|discriminate].
  destruct (pads_ok _ _ _); [|discriminate].
  cbn [zip_with fst snd] in Hv. rewrite Z.add_0_l, !Z.add_0_r in Hv.
  destruct (_ && _); [|discriminate].
  cbn [kernel_hw fst snd] in Hv. rewrite !conv_3_length in Hv.
  by injection Hv as <-.
Qed.

(** The transposed convolution with strides [(2, 2)], without its first row
    and column. *)
Lemma infer_transposed_conv scope num_outputs net b h w c :
  infer feed net = Some (VShape [b; h; w; c]) →
  0 ≤ h → 0 ≤ w →
  infer feed (transposed_conv scope num_outputs (2, 2) net)
  = Some (VShape [b; 2 * h; 2 * w; num_outputs]).
Proof.
  intros Hnet Hh Hw. unfold transposed_conv. cbn [infer]. rewrite Hnet. cbn.
  change (Z.max (deconv_output_length h 3 2 - 1) 0)
    with (slice_length (deconv_output_length h 3 2) (SliceFrom 1)).
  change (Z.max (deconv_output_length w 3 2 - 1) 0)
    with (slice_length (deconv_output_length w 3 2) (SliceFrom 1)).
  by rewrite !deconv_slice_length.
Qed.

Lemma infer_transposed_conv_at_most scope num_outputs net b h w c :
  at_most (infer feed net) [b; h; w; c] →
  0 ≤ h → 0 ≤ w →
  at_most (infer feed (transposed_conv scope num_outputs (2, 2) net))
    [b; 2 * h; 2 * w; num_outputs].
Proof.
  intros Hnet Hh Hw v Hv.
  destruct (infer feed net) as [vnet|] eqn:Hinfer.
  - pose proof (Hnet _ eq_refl) as ->.
    rewrite (infer_transposed_conv _ _ _ _ _ _ _ Hinfer) in Hv by done.
    by injection Hv as <-.
  - unfold transposed_conv in Hv. cbn [infer] in Hv.
    rewrite Hinfer in Hv. discriminate.
Qed.

(** With strides [(2, 2)] every method doubles height and width. *)
Lemma infer_upsampled scope method pad_mode num_outputs net b h w c :
  infer feed net = Some (VShape [b; h; w; c]) →
  method = "conv2d_transpose" ∨ is_Some (pad_mode_kind pad_mode) →
  1 ≤ b → 1 ≤ h → 1 ≤ w → 1 ≤ c → 1 ≤ num_outputs →
  infer feed (upsampled scope method pad_mode num_outputs (2, 2) net)
  = Some (VShape [b; 2 * h; 2 * w; num_outputs]).
Proof.
  intros Hnet Hmode ? ? ? ? ?. unfold upsampled.
  destruct (String.eqb_spec method "nn_upsample_conv") as [->|_].
  { destruct Hmode as [|Hmode]; [done|].
    apply (infer_resize_conv _ _ _ _ (2, 2) _ _ _ _ _ Hnet Hmode);
      cbn [fst snd]; lia. }
  destruct (String.eqb_spec method "bilinear_upsample_conv") as [->|_].
  { destruct Hmode as [|Hmode]; [done|].
    apply (infer_resize_conv _ _ _ _ (2, 2) _ _ _ _ _ Hnet Hmode);
      cbn [fst snd]; lia. }
  apply (infer_transposed_conv _ _ _ _ _ _ _ Hnet); lia.
Qed.

Lemma infer_upsampled_at_most scope method pad_mode num_outputs net b h w c :
  at_most (infer feed net) [b; h; w; c] →
  0 ≤ h → 0 ≤ w →
  at_most (infer feed (upsampled scope method pad_mode num_outputs (2, 2) net))
    [b; 2 * h; 2 * w; num_outputs].
Proof.
  intros Hnet ? ?. unfold upsampled.
  destruct (String.eqb method "nn_upsample_conv");
    [exact (infer_resize_conv_at_most _ _ _ _ (2, 2) _ _ _ _ _ Hnet)|].
  destruct (String.eqb method "bilinear_upsample_conv");
    [exact (infer_resize_conv_at_most _ _ _ _ (2, 2) _ _ _ _ _ Hnet)|].
  by apply (infer_transposed_conv_at_most _ _ _ _ _ _ c).
Qed.

Lemma infer_output_conv scope num_outputs x b h w c :
  infer feed x = Some (VShape [b; h; w; c]) →
  1 ≤ b → 1 ≤ c → 1 ≤ num_outputs → 4 ≤ h → 4 ≤ w →
  infer feed (output_conv scope (Some num_outputs) x)
  = Some (VShape [b; h; w; num_outputs]).
Proof.
  intros Hx ? ? ? ? ?. unfold output_conv.
  rewrite (infer_reflect_conv _ _ _ _ _ _ _ _ _ _ _ _ _ _ _ Hx)
    by (cbn [kernel_hw fst snd]; lia).
  cbn [kernel_hw fst snd]. by rewrite !conv_7_length.
Qed.

Lemma infer_output_conv_at_most scope num_outputs x b h w c :
  at_most (infer feed x) [b; h; w; c] →
  at_most (infer feed (output_conv scope (Some num_outputs) x))
    [b; h; w; num_outputs].
Proof.
  intros Hx. unfold output_conv.
  pose proof (infer_reflect_conv_at_most
                (scope ++ ["encoder"; "output"]) x num_outputs (KInt 7) 1
                (random_normal_initializer 0 (2 # 100)) false
                _ _ _ _ 3 3 3 3 Hx) as H.
  cbn [kernel_hw fst snd] in H. by rewrite !conv_7_length in H.
Qed.

(** [tanh(logits) + logits * slope] has the shape of the logits, and has a
    shape only if the logits have one. *)
Lemma infer_predictions logits slope dims :
  infer feed logits = Some (VShape dims) →
  infer feed (tensor_add (tf_tanh logits) (tensor_times logits slope))
  = Some (VShape dims).
Proof. intros Hl. cbn [infer]. rewrite Hl. by rewrite broadcast_same. Qed.

Lemma infer_predictions_is_Some logits slope :
  is_Some (infer feed (tensor_add (tf_tanh logits) (tensor_times logits slope))) →
  ∃ dims, infer feed logits = Some (VShape dims).
Proof.
  intros [v Hv]. cbn [infer] in Hv.
  destruct (infer feed logits) as [[dims| |]|]; try discriminate. eauto.
Qed.

End Shapes.

Lemma default_upsample_fn_returns scope net num_outputs strides :
  default_upsample_fn scope net num_outputs strides
  = Ok (transposed_conv scope num_outputs strides net).
Proof. reflexivity. Qed.

(** C5, as the code has it.  The call raises the [ValueError] of line 99,
    with the method's name in its message, exactly when [method] is none of
    the three recognised values, and on that path the only operations created
    are [tf.shape(net)] and the reads of its entries 1 and 2: no resize, pad,
    convolution, normalization or slicing is applied to the input.  With a
    recognised method, a call that returns has built the method's chain of
    operations on [net] (resize, pad, 3x3 convolution, instance
    normalization, ReLU; or transposed convolution, ReLU, [[:, 1:, 1:, :]]),
    which with the strides [(2, 2)] has twice the height and width of a
    non-empty [net] and [num_outputs] channels. *)
Theorem cyclegan_upsample_methods scope net num_outputs strides method pad_mode :
  (cyclegan_upsample scope net num_outputs strides method pad_mode
   = Raise (ValueError ("Unknown method: [" +:+ method +:+ "]"))
   ↔ method ∉ known_methods)
  ∧ (method ∉ known_methods →
     cyclegan_upsample_calls scope net num_outputs strides method pad_mode
     = ([tf_shape net; getitem (tf_shape net) 1; getitem (tf_shape net) 2],
        Raise (ValueError ("Unknown method: [" +:+ method +:+ "]"))))
  ∧ (cyclegan_upsample_calls scope net num_outputs strides method pad_mode).2
    = cyclegan_upsample scope net num_outputs strides method pad_mode
  ∧ (∀ t,
       cyclegan_upsample scope net num_outputs strides method pad_mode = Ok t →
       method ∈ known_methods
       ∧ t = upsampled scope method pad_mode num_outputs strides net)
  ∧ (∀ feed b h w c t,
       strides = (2, 2) →
       cyclegan_upsample scope net num_outputs strides method pad_mode = Ok t →
       infer feed net = Some (VShape [b; h; w; c]) →
       1 ≤ b → 1 ≤ h → 1 ≤ w → 1 ≤ c → 1 ≤ num_outputs →
       infer feed t = Some (VShape [b; 2 * h; 2 * w; num_outputs])).
Proof.
  split; [|split; [|split; [|split]]].
  - split; [|apply cyclegan_upsample_unknown].
    intros Hraise Hm. rewrite cyclegan_upsample_known in Hraise by done.
    destruct (_ || _); [discriminate|]. simpl in Hraise. discriminate.
  - intros Hm. unfold cyclegan_upsample_calls.
    destruct (String.eqb_spec method "nn_upsample_conv") as [->|_].
    { exfalso. apply Hm. apply known_methods_cases. auto. }
    destruct (String.eqb_spec method "bilinear_upsample_conv") as [->|_].
    { exfalso. apply Hm. apply known_methods_cases. auto. }
    destruct (String.eqb_spec method "conv2d_transpose") as [->|_].
    { exfalso. apply Hm. apply known_methods_cases. auto. }
    reflexivity.
  - apply cyclegan_upsample_calls_result.
  - intros t Hup. apply cyclegan_upsample_returns in Hup. tauto.
  - intros feed b h w c t -> Hup Hnet ? ? ? ? ?.
    apply cyclegan_upsample_returns in Hup as (_ & Hmode & ->).
    by apply (infer_upsampled feed _ _ _ _ _ _ _ _ _ Hnet Hmode).
Qed.

Lemma cyclegan_upsample_methods_witness :
  cyclegan_upsample_calls [] (placeholder "net") 128 (2, 2) "nearest" "REFLECT"
  = ([tf_shape (placeholder "net"); getitem (tf_shape (placeholder "net")) 1;
      getitem (tf_shape (placeholder "net")) 2],
     Raise (ValueError "Unknown method: [nearest]"))
  ∧ ∃ t, cyclegan_upsample [] (placeholder "net") 128 (2, 2)
           "bilinear_upsample_conv" "reflect" = Ok t
         ∧ infer {[ "net" := [1; 2; 3; 256] ]} t
           = Some (VShape [1; 4; 6; 128]).
Proof.
  split.
  - apply (proj1 (proj2 (cyclegan_upsample_methods [] (placeholder "net") 128
                           (2, 2) "nearest" "REFLECT"))).
    unfold known_methods. intros Hin%list_elem_of_In. simpl in Hin.
    intuition discriminate.
  - eexists. split; [reflexivity|].
    apply (proj2 (proj2 (proj2 (proj2
             (cyclegan_upsample_methods [] (placeholder "net") 128 (2, 2)
                "bilinear_upsample_conv" "reflect"))))
             {[ "net" := [1; 2; 3; 256] ]} 1 2 3 256);
      first [reflexivity | lia].
Defined.

(** A [ValueError] on a recognised method: the padding mode is passed on to
    [tf.pad], which does not know ['FOO']. *)
Lemma value_error_with_recognised_method :
  "nn_upsample_conv" ∈ known_methods
  ∧ is_ValueError
      (cyclegan_upsample [] (placeholder "net") 128 (2, 2) "nn_upsample_conv"
         "FOO").
Proof.
  split.
  - apply known_methods_cases. auto.
  - eexists. reflexivity.
Qed.

Lemma known_dims_fully_defined s dims :
  is_fully_defined s = true → describes s dims →
  known_dims (as_list s) = Some dims.
Proof.
  destruct s as [[b|] [h|] [w|] [c|]]; try discriminate. intros _ Hd.
  unfold describes, as_list in Hd. cbn in Hd.
  repeat match goal with
         | H : Forall2 _ (_ :: _) _ |- _ =>
             apply Forall2_cons_inv_l in H as (? & ? & <- & H & ->)
         | H : Forall2 _ [] _ |- _ => apply Forall2_nil_inv_l in H as ->
         end.
  reflexivity.
Qed.

Lemma describes_channels s b h w c c' :
  describes s [b; h; w; c] → dim_channels s = Some c' → c' = c.
Proof.
  unfold describes, as_list. intros Hd Hc.
  apply Forall2_cons_1 in Hd as [_ Hd].
  apply Forall2_cons_1 in Hd as [_ Hd].
  apply Forall2_cons_1 in Hd as [_ Hd].
  apply Forall2_cons_1 in Hd as [Hd _].
  rewrite Hc in Hd. exact Hd.
Qed.

(** Without a static channel count the output convolution has no filter
    count. *)
Lemma infer_output_conv_None feed scope x :
  infer feed (output_conv scope None x) = None.
Proof. unfold output_conv. cbn [infer]. repeat case_match; reflexivity. Qed.

(** The reshape of a tensor to the shape of the images: its value, if it has
    one, has the shape of the images; it has one exactly when the tensor has
    as many elements as the images. *)
Lemma infer_reshape_to_images static_shape feed images x dims :
  infer feed images = Some (VShape dims) →
  describes (static_shape images) dims →
  infer feed (tf_reshape x (shape_of_images static_shape images))
  = match infer feed x with
    | Some (VShape dx) =>
        if decide (num_elements dx = num_elements dims)
        then Some (VShape dims) else None
    | _ => None
    end.
Proof.
  intros Himg Hdesc. cbn [infer]. unfold shape_of_images.
  destruct (is_fully_defined (static_shape images)) eqn:Hfull.
  - by rewrite (known_dims_fully_defined _ _ Hfull Hdesc).
  - cbn [infer]. by rewrite Himg.
Qed.

(** The builder on small inputs: a static 6 is rejected by the check; an
    unknown height passes the check, and if it turns out to be 6 at run time
    the final reshape has no shape to give; a negative block count builds no
    residual block; a kernel size beyond the range of the machine integers
    stops the call at the array of paddings. *)
Example height_6_rejected :
  cyclegan_generator_resnet
    (λ _, mkShape (Some 1) (Some 6) (Some 8) (Some 3)) []
    (placeholder "images") 6 64 default_upsample_fn (KInt 3) 0
  = Raise (ValueError "The input height must be a multiple of 4.").
Proof. reflexivity. Qed.

Example unknown_height_6_not_reshaped :
  (λ '(predictions, _), infer {[ "images" := [1; 6; 8; 3] ]} predictions)
    <$> cyclegan_generator_resnet
          (λ _, mkShape (Some 1) None (Some 8) (Some 3)) []
          (placeholder "images") 0 64 default_upsample_fn (KInt 3) 0
  = Ok None.
Proof. rewrite generator_unfold. reflexivity. Qed.

Example negative_block_count :
  (λ '(_, end_points), end_points !! resnet_block_key 0)
    <$> cyclegan_generator_resnet
          (λ _, mkShape (Some 1) (Some 8) (Some 8) (Some 3)) []
          (placeholder "images") (-2) 64 default_upsample_fn (KInt 3) 0
  = Ok None.
Proof. rewrite generator_unfold. reflexivity. Qed.

Example kernel_size_beyond_machine_integers :
  cyclegan_generator_resnet
    (λ _, mkShape (Some 1) (Some 8) (Some 8) (Some 3)) []
    (placeholder "images") 6 64 default_upsample_fn (KInt (2 ^ 70)) 0
  = Raise (OtherException "OverflowError"
             "Python integer out of bounds for int32").
Proof. rewrite generator_unfold. reflexivity. Qed.

(** C4 (output shape).  Let the images have shape [[b; h; w; c]] with [h] and
    [w] multiples of 4, as their static shape describes it, and let
    [upsample_fn] be the default [cyclegan_upsample].  When the generator
    returns, the recorded logits are the output convolution reshaped to the
    static shape of [images] when that is fully defined and to
    [tf.shape(images)] otherwise, and the predictions are
    [tanh(logits) + logits * tanh_linear_slope].  Whatever the output
    convolution, the logits and the predictions evaluate to has the shape
    [[b; h; w; c]] of the images; and once the output convolution evaluates,
    the logits and the predictions do, with exactly that shape. *)
Theorem generator_output_shape static_shape feed scope images
    num_resnet_blocks num_filters kernel_size tanh_linear_slope b h w c
    predictions end_points :
  cyclegan_generator_resnet static_shape scope images num_resnet_blocks
    num_filters default_upsample_fn kernel_size tanh_linear_slope
  = Ok (predictions, end_points) →
  infer feed images = Some (VShape [b; h; w; c]) →
  describes (static_shape images) [b; h; w; c] →
  0 ≤ h → 0 ≤ w →
  h `mod` 4 = 0 → w `mod` 4 = 0 →
  let conv :=
    output_conv scope (dim_channels (static_shape images))
      (transposed_conv (decoder_scope scope "decoder2") num_filters (2, 2)
         (transposed_conv (decoder_scope scope "decoder1") (num_filters * 2)
            (2, 2)
            (residual_blocks scope num_filters kernel_size
               (Z.to_nat num_resnet_blocks)
               (encoder_stage scope (num_filters * 4) kernel_size
                  (encoder_stage scope (num_filters * 2) kernel_size
                     (input_stage scope num_filters images)))))) in
  let logits := tf_reshape conv (shape_of_images static_shape images) in
  end_points !! "logits" = Some logits
  ∧ predictions
    = tensor_add (tf_tanh logits) (tensor_times logits tanh_linear_slope)
  ∧ at_most (infer feed conv) [b; h; w; c]
  ∧ at_most (infer feed logits) [b; h; w; c]
  ∧ at_most (infer feed predictions) [b; h; w; c]
  ∧ (is_Some (infer feed conv) →
     infer feed logits = Some (VShape [b; h; w; c])
     ∧ infer feed predictions = Some (VShape [b; h; w; c])).
Proof.
  intros Hgen Himg Hdesc Hh Hw Hh4 Hw4 conv logits.
  apply generator_returns in Hgen
    as (_ & _ & d1 & d2 & Hup1 & Hup2 & Hpred & Hep).
  cbn zeta in Hup1, Hup2, Hpred, Hep.
  rewrite default_upsample_fn_returns in Hup1. injection Hup1 as <-.
  rewrite default_upsample_fn_returns in Hup2. injection Hup2 as <-.
  fold conv in Hpred, Hep. fold logits in Hpred, Hep.
  assert (at_most (infer feed conv) [b; h; w; c]) as Hconv.
  { unfold conv. destruct (dim_channels (static_shape images)) as [c'|] eqn:Hc;
      [|intros v Hv; by rewrite infer_output_conv_None in Hv].
    rewrite (describes_channels _ _ _ _ _ _ Hdesc Hc).
    assert (at_most (infer feed images) [b; h; w; c]) as H
      by (intros v Hv; congruence).
    apply (infer_input_stage_at_most feed scope num_filters) in H.
    apply (infer_encoder_stage_at_most feed scope (num_filters * 2)
             kernel_size) in H.
    apply (infer_encoder_stage_at_most feed scope (num_filters * 4)
             kernel_size) in H.
    apply (infer_residual_blocks_at_most feed scope num_filters kernel_size
             (Z.to_nat num_resnet_blocks)) in H.
    apply (infer_transposed_conv_at_most feed (decoder_scope scope "decoder1")
             (num_filters * 2)) in H; [|div_lia..].
    apply (infer_transposed_conv_at_most feed (decoder_scope scope "decoder2")
             num_filters) in H; [|div_lia..].
    apply (infer_output_conv_at_most feed scope c) in H.
    replace (2 * (2 * (((h + 1) `div` 2 + 1) `div` 2))) with h in H by div_lia.
    replace (2 * (2 * (((w + 1) `div` 2 + 1) `div` 2))) with w in H by div_lia.
    exact H. }
  assert (infer feed logits
          = match infer feed conv with
            | Some _ => Some (VShape [b; h; w; c])
            | None => None
            end) as Hlogits.
  { unfold logits.
    rewrite (infer_reshape_to_images _ _ _ _ _ Himg Hdesc).
    destruct (infer feed conv) as [v|]; [|done].
    rewrite (Hconv v eq_refl). by rewrite decide_True. }
  assert (at_most (infer feed logits) [b; h; w; c]) as Hl.
  { intros v Hv. rewrite Hlogits in Hv.
    destruct (infer feed conv); [|discriminate]. by injection Hv as <-. }
  split; [rewrite Hep, lookup_insert_ne by done; apply lookup_insert_eq|].
  split; [exact Hpred|]. split; [exact Hconv|]. split; [exact Hl|]. split.
  - rewrite Hpred. intros v Hv.
    destruct (infer_predictions_is_Some feed logits tanh_linear_slope
                (mk_is_Some _ _ Hv)) as [dims Hdims].
    pose proof (Hl _ Hdims) as [= ->].
    rewrite (infer_predictions feed _ _ _ Hdims) in Hv. by injection Hv as <-.
  - intros [v Hv]. rewrite Hv in Hlogits. split; [exact Hlogits|].
    rewrite Hpred. by apply infer_predictions.
Qed.

Lemma generator_output_shape_witness :
  let static_shape := λ _ : Tensor, mkShape None (Some 8) None (Some 3) in
  let feed : gmap string (list Z) := {[ "images" := [5; 8; 12; 3] ]} in
  ∃ predictions end_points logits,
    cyclegan_generator_resnet static_shape [] (placeholder "images") 6 64
      default_upsample_fn (KInt 3) 0 = Ok (predictions, end_points)
    ∧ end_points !! "logits" = Some logits
    ∧ infer feed logits = Some (VShape [5; 8; 12; 3])
    ∧ infer feed predictions = Some (VShape [5; 8; 12; 3]).
Proof.
  intros static_shape feed.
  assert (∃ r, cyclegan_generator_resnet static_shape [] (placeholder "images") 6
              64 default_upsample_fn (KInt 3) 0 = Ok r)
    as [[predictions end_points] Hgen]
    by (eexists; rewrite generator_unfold; reflexivity).
  exists predictions, end_points.
  destruct (generator_output_shape static_shape feed [] (placeholder "images")
              6 64 (KInt 3) 0 5 8 12 3 predictions end_points Hgen)
    as (Hlog & _ & _ & _ & _ & Hshapes).
  - reflexivity.
  - unfold describes. cbn. repeat constructor.
  - lia.
  - lia.
  - reflexivity.
  - reflexivity.
  - eexists. split; [exact Hgen|]. split; [exact Hlog|].
    apply Hshapes. vm_compute. eauto.
Defined.

(** ** Normalization *)

Lemma only_module_norm_input_stage scope num_filters x :
  only_module_norm x → only_module_norm (input_stage scope num_filters x).
Proof. intros Hx. by constructor. Qed.

Lemma only_module_norm_encoder_stage scope filters kernel_size x :
  only_module_norm x →
  only_module_norm (encoder_stage scope filters kernel_size x).
Proof. intros Hx. by constructor. Qed.

Lemma only_module_norm_residual_block scope num_filters kernel_size i x :
  only_module_norm x →
  only_module_norm (residual_block scope num_filters kernel_size i x).
Proof.
  intros Hx. unfold only_module_norm, residual_block. cbn [norm_sites].
  apply Forall_app. split; [done|]. by repeat constructor.
Qed.

Lemma only_module_norm_residual_blocks scope num_filters kernel_size n x :
  only_module_norm x →
  only_module_norm (residual_blocks scope num_filters kernel_size n x).
Proof.
  intros Hx. induction n as [|n IH]; [done|].
  by apply only_module_norm_residual_block.
Qed.


Lemma only_module_norm_cyclegan_upsample scope net num_outputs strides method
    pad_mode t :
  cyclegan_upsample scope net num_outputs strides method pad_mode = Ok t →
  only_module_norm net → only_module_norm t.
Proof.
  intros (_ & _ & ->)%cyclegan_upsample_returns Hnet.
  unfold upsampled, resize_conv, transposed_conv, only_module_norm.
  repeat case_match; cbn [norm_sites];
    repeat first [ assumption
                 | apply Forall_cons; split; [reflexivity|]
                 | apply Forall_app; split ].
Qed.

Lemma only_module_norm_record_blocks scope num_filters kernel_size n x
    (end_points : gmap string Tensor) :
  only_module_norm x →
  map_Forall (λ _, only_module_norm) end_points →
  map_Forall (λ _, only_module_norm)
    (record_blocks scope num_filters kernel_size n x end_points).
Proof.
  intros Hx Hep. induction n as [|n IH]; [done|].
  cbn [record_blocks]. apply map_Forall_insert_2; [|done].
  by apply (only_module_norm_residual_blocks _ _ _ (S n)).
Qed.

(** ** Sums over a slice *)

Lemma sum_to_ext n f g :
  (∀ i, (i < n)%nat → f i = g i) → sum_to n f = sum_to n g.
Proof.
  induction n as [|n IH]; [done|]. intros Hfg. cbn [sum_to].
  rewrite IH by (intros; apply Hfg; lia). by rewrite Hfg by lia.
Qed.

Lemma sum_to_affine n a b f :
  sum_to n (λ i, a * f i + b)%R = (a * sum_to n f + INR n * b)%R.
Proof.
  induction n as [|n IH].
  - cbn. lra.
  - cbn [sum_to]. rewrite IH, S_INR. lra.
Qed.

Section Slices.

Variables height width : nat.

Lemma slice_sum_ext f g :
  (∀ i j, (i < height)%nat → (j < width)%nat → f i j = g i j) →
  slice_sum height width f = slice_sum height width g.
Proof.
  intros Hfg. unfold slice_sum.
  apply sum_to_ext. intros i Hi. apply sum_to_ext. auto.
Qed.

Lemma slice_sum_affine a b f :
  slice_sum height width (λ i j, a * f i j + b)%R
  = (a * slice_sum height width f + slice_size height width * b)%R.
Proof.
  unfold slice_sum, slice_size.
  rewrite (sum_to_ext _ _ (λ i, a * sum_to width (λ j, f i j) + INR width * b)%R)
    by (intros; apply sum_to_affine).
  rewrite sum_to_affine. lra.
Qed.

Lemma slice_mean_ext (x x' : Image) n c :
  (∀ i j, (i < height)%nat → (j < width)%nat → x n i j c = x' n i j c) →
  slice_mean height width x n c = slice_mean height width x' n c.
Proof. intros Hx. unfold slice_mean. f_equal. by apply slice_sum_ext. Qed.

Lemma slice_variance_ext (x x' : Image) n c :
  (∀ i j, (i < height)%nat → (j < width)%nat → x n i j c = x' n i j c) →
  slice_variance height width x n c = slice_variance height width x' n c.
Proof.
  intros Hx. unfold slice_variance. f_equal.
  rewrite (slice_mean_ext _ _ _ _ Hx).
  apply slice_sum_ext. intros i j Hi Hj. by rewrite Hx.
Qed.

Lemma instance_norm_local center scale epsilon beta gamma (x x' : Image) n c :
  (∀ i j, (i < height)%nat → (j < width)%nat → x n i j c = x' n i j c) →
  ∀ i j, (i < height)%nat → (j < width)%nat →
    instance_norm height width center scale epsilon beta gamma x n i j c
    = instance_norm height width center scale epsilon beta gamma x' n i j c.
Proof.
  intros Hx i j Hi Hj. unfold instance_norm.
  by rewrite (slice_mean_ext _ _ _ _ Hx), (slice_variance_ext _ _ _ _ Hx), Hx.
Qed.

Lemma instance_norm_mean center scale epsilon beta gamma (x : Image) n c :
  (0 < height)%nat → (0 < width)%nat →
  slice_mean height width
    (instance_norm height width center scale epsilon beta gamma x) n c
  = if center then beta c else 0%R.
Proof.
  intros Hh Hw.
  assert (slice_size height width ≠ 0%R) as Hsize.
  { unfold slice_size. apply Rmult_integral_contrapositive_currified;
      apply not_0_INR; lia. }
  unfold slice_mean at 1, instance_norm.
  set (g := if scale then gamma c else 1%R).
  set (b := if center then beta c else 0%R).
  set (m := slice_mean height width x n c).
  set (r := (/ sqrt (slice_variance height width x n c + epsilon))%R).
  rewrite (slice_sum_ext _ (λ i j, (g * r) * x n i j c + (b - g * r * m))%R)
    by (intros; unfold Rdiv; fold r; ring).
  rewrite slice_sum_affine.
  assert (slice_sum height width (λ i j, x n i j c)
          = (m * slice_size height width)%R) as ->.
  { unfold m, slice_mean. field. exact Hsize. }
  field. exact Hsize.
Qed.

End Slices.

(** C6 (instance normalization).  [_instance_norm] is the instance
    normalization layer called with [center=True], [scale=True] and
    [epsilon=0.001].  What such a node computes is the per-sample,
    per-channel normalization: each value is centred by the mean of its own
    (sample, channel) slice, divided by the square root of that slice's
    variance plus 0.001, multiplied by the learned scale and shifted by the
    learned offset of its channel; a slice of the result depends on no other
    slice of the input, and its mean is the offset.  And every normalization
    in the graph that the generator builds, with [cyclegan_upsample] under any
    method as [upsample_fn], is made with exactly these arguments. *)
Theorem instance_norm_sites :
  (∀ scope x,
     _instance_norm scope x
     = tfgan_features_instance_norm scope x true true (1 # 1000))
  ∧ (∀ height width scope t beta gamma (x : Image),
       ∃ y : Image,
         norm_value height width (_instance_norm scope t) beta gamma x = Some y
         ∧ (∀ n i j c,
              y n i j c
              = (gamma c
                 * ((x n i j c - slice_mean height width x n c)
                    / sqrt (slice_variance height width x n c + 1 / 1000))
                 + beta c)%R)
         ∧ (∀ (x' : Image) n c,
              (∀ i j, (i < height)%nat → (j < width)%nat →
                      x n i j c = x' n i j c) →
              ∃ y' : Image,
                norm_value height width (_instance_norm scope t) beta gamma x'
                = Some y'
                ∧ ∀ i j, (i < height)%nat → (j < width)%nat →
                         y n i j c = y' n i j c)
         ∧ ((0 < height)%nat → (0 < width)%nat →
            ∀ n c, slice_mean height width y n c = beta c))
  ∧ (∀ static_shape scope images num_resnet_blocks num_filters method pad_mode
       kernel_size tanh_linear_slope predictions end_points,
       only_module_norm images →
       cyclegan_generator_resnet static_shape scope images num_resnet_blocks
         num_filters
         (λ sc net num_outputs strides,
            cyclegan_upsample sc net num_outputs strides method pad_mode)
         kernel_size tanh_linear_slope
       = Ok (predictions, end_points) →
       only_module_norm predictions
       ∧ map_Forall (λ _, only_module_norm) end_points).
Proof.
  split; [reflexivity|]. split.
  - intros height width scope t beta gamma x. eexists. split; [reflexivity|].
    assert (Q2R (1 # 1000) = (1 / 1000)%R) as Heps by (unfold Q2R; cbn; lra).
    split; [|split].
    + intros n i j c. unfold instance_norm. by rewrite Heps.
    + intros x' n c Hx. eexists. split; [reflexivity|].
      by apply instance_norm_local.
    + intros Hh Hw n c. by rewrite instance_norm_mean.
  - intros static_shape scope images n num_filters method pad_mode kernel_size
      slope predictions end_points Himg Hgen.
    apply generator_returns in Hgen
      as (_ & _ & d1 & d2 & Hup1 & Hup2 & Hpred & Hep).
    cbn beta zeta in Hup1, Hup2, Hpred, Hep.
    pose proof (only_module_norm_input_stage scope num_filters _ Himg) as H0.
    pose proof (only_module_norm_encoder_stage scope (num_filters * 2)
                  kernel_size _ H0) as H1.
    pose proof (only_module_norm_encoder_stage scope (num_filters * 4)
                  kernel_size _ H1) as H2.
    pose proof (only_module_norm_residual_blocks scope num_filters kernel_size
                  (Z.to_nat n) _ H2) as Hblocks.
    pose proof (only_module_norm_cyclegan_upsample _ _ _ _ _ _ _ Hup1 Hblocks)
      as Hd1.
    pose proof (only_module_norm_cyclegan_upsample _ _ _ _ _ _ _ Hup2 Hd1)
      as Hd2.
    assert (only_module_norm
              (tf_reshape
                 (output_conv scope (dim_channels (static_shape images)) d2)
                 (shape_of_images static_shape images))) as Hlogits.
    { unfold only_module_norm, shape_of_images. cbn [norm_sites].
      apply Forall_app. split; [exact Hd2|].
      by destruct (is_fully_defined _). }
    assert (only_module_norm predictions) as Hp.
    { rewrite Hpred. unfold only_module_norm. cbn [norm_sites].
      apply Forall_app. by split. }
    split; [exact Hp|]. rewrite Hep.
    repeat (apply map_Forall_insert_2; [assumption|]).
    apply only_module_norm_record_blocks; [assumption|].
    repeat (apply map_Forall_insert_2; [assumption|]).
    apply map_Forall_empty.
Qed.

Lemma instance_norm_sites_witness :
  let static_shape := λ _ : Tensor, mkShape (Some 1) (Some 4) (Some 4) (Some 3) in
  (∃ predictions end_points,
     cyclegan_generator_resnet static_shape [] (placeholder "images") 1 64
       (λ sc net num_outputs strides,
          cyclegan_upsample sc net num_outputs strides
            "bilinear_upsample_conv" "REFLECT")
       (KInt 3) 0 = Ok (predictions, end_points)
     ∧ only_module_norm predictions)
  ∧ (∃ y : Image,
       norm_value 2 2 (_instance_norm [] (placeholder "x"))
         (λ _, 5%R) (λ _, 1%R) (λ _ i j _, INR (i + j)) = Some y
       ∧ slice_mean 2 2 y 0 0 = 5%R).
Proof.
  intros static_shape. split.
  - assert (∃ r, cyclegan_generator_resnet static_shape [] (placeholder "images")
                1 64
                (λ sc net num_outputs strides,
                   cyclegan_upsample sc net num_outputs strides
                     "bilinear_upsample_conv" "REFLECT")
                (KInt 3) 0 = Ok r)
    as [[predictions end_points] Hgen]
    by (eexists; rewrite generator_unfold; reflexivity).
    exists predictions, end_points. split; [exact Hgen|].
    assert (only_module_norm (placeholder "images")) as Himg by constructor.
    exact (proj1 (proj2 (proj2 instance_norm_sites) _ _ _ _ _ _ _ _ _ _ _
                   Himg Hgen)).
  - destruct (proj1 (proj2 instance_norm_sites) 2%nat 2%nat []
                (placeholder "x") (λ _, 5%R) (λ _, 1%R)
                (λ _ i j _, INR (i + j)))
      as (y & Hy & _ & _ & Hmean).
    exists y. split; [exact Hy|]. apply Hmean; lia.
Defined.

(** ** The module *)

(** C8 (what the module defines).  The module docstring announces generator
    and discriminator networks; the module defines the generator
    [cyclegan_generator_resnet], and none of its top-level definitions is a
    discriminator. *)
Theorem module_has_no_discriminator :
  contains "discriminator" module_docstring = true
  ∧ "cyclegan_generator_resnet" ∈ module_definitions
  ∧ Forall (λ name, contains "discriminator" name = false) module_definitions.
Proof.
  split; [reflexivity|]. split.
  - unfold module_definitions. set_solver.
  - repeat constructor.
Qed.

(** * Further properties of the module *)

(** ** Outcome of a call *)

(** X4 (which error the check raises).  Whatever [upsample_fn] is, a rejected
    height makes the call raise the height message, also when the width is
    rejected too; a rejected width with an accepted height makes it raise the
    width message.  Both happen before [upsample_fn] is ever called, so an
    [upsample_fn] that would fail does not change the error. *)
Theorem dimension_check_messages static_shape scope images num_resnet_blocks
    num_filters upsample_fn kernel_size tanh_linear_slope :
  (rejected_dimension (dim_height (static_shape images)) →
   cyclegan_generator_resnet static_shape scope images num_resnet_blocks
     num_filters upsample_fn kernel_size tanh_linear_slope
   = Raise (ValueError "The input height must be a multiple of 4."))
  ∧ (¬ rejected_dimension (dim_height (static_shape images)) →
     rejected_dimension (dim_width (static_shape images)) →
     cyclegan_generator_resnet static_shape scope images num_resnet_blocks
       num_filters upsample_fn kernel_size tanh_linear_slope
     = Raise (ValueError "The input width must be a multiple of 4.")).
Proof.
  rewrite generator_unfold. split.
  - intros Hh. apply check_rejects in Hh. by rewrite Hh.
  - intros Hh Hw. apply check_accepts in Hh. apply check_rejects in Hw.
    by rewrite Hh, Hw.
Qed.

Lemma dimension_check_messages_witness :
  let static_shape := λ _ : Tensor, mkShape None (Some 6) (Some 7) (Some 3) in
  let failing := λ (_ : list string) (_ : Tensor) (_ : Z) (_ : Z * Z),
    @Raise Tensor (OtherException "RuntimeError" "no upsampling") in
  cyclegan_generator_resnet static_shape [] (placeholder "images") 6 64
    failing (KInt 3) 0
  = Raise (ValueError "The input height must be a multiple of 4.")
  ∧ cyclegan_generator_resnet
      (λ _ : Tensor, mkShape None None (Some 7) (Some 3)) []
      (placeholder "images") 6 64 failing (KInt 3) 0
    = Raise (ValueError "The input width must be a multiple of 4.").
Proof.
  intros static_shape failing. split.
  - apply (proj1 (dimension_check_messages static_shape [] (placeholder "images")
                    6 64 failing (KInt 3) 0)).
    exists 6. repeat split; [lia|]. vm_compute. discriminate.
  - apply (proj2 (dimension_check_messages
                    (λ _ : Tensor, mkShape None None (Some 7) (Some 3)) []
                    (placeholder "images") 6 64 failing (KInt 3) 0)).
    + intros (n & Hn & _). discriminate.
    + exists 7. repeat split; [lia|]. vm_compute. discriminate.
Defined.

(** X5 (what a returning call was given).  With the module's own
    [cyclegan_upsample] as [upsample_fn], under a [method] and a [pad_mode],
    the generator returns only if the method is one of the three recognised
    ones, the padding mode is one that [tf.pad] knows (whatever its case)
    unless the method is ['conv2d_transpose'], which does not pad, and
    neither the static height nor the static width is rejected by the
    check. *)
Theorem returning_call_arguments static_shape scope images num_resnet_blocks
    num_filters method pad_mode kernel_size tanh_linear_slope predictions
    end_points :
  cyclegan_generator_resnet static_shape scope images num_resnet_blocks
    num_filters (upsample_with method pad_mode) kernel_size tanh_linear_slope
  = Ok (predictions, end_points) →
  method ∈ known_methods
  ∧ (method = "conv2d_transpose" ∨ is_Some (pad_mode_kind pad_mode))
  ∧ ¬ rejected_dimension (dim_height (static_shape images))
  ∧ ¬ rejected_dimension (dim_width (static_shape images)).
Proof.
  intros Hgen.
  apply generator_returns in Hgen as (Hh & Hw & d1 & d2 & Hup1 & _).
  cbn zeta in Hup1. unfold upsample_with in Hup1.
  apply cyclegan_upsample_returns in Hup1 as (Hm & Hmode & _). auto.
Qed.

Lemma returning_call_arguments_witness :
  let static_shape := λ _ : Tensor, mkShape (Some 1) (Some 16) (Some 16) (Some 3) in
  ∃ predictions end_points,
    cyclegan_generator_resnet static_shape [] (placeholder "images") 2 32
      (upsample_with "nn_upsample_conv" "symmetric") (KInt 3) 0
    = Ok (predictions, end_points)
    ∧ is_Some (pad_mode_kind "symmetric").
Proof.
  intros static_shape.
  assert (∃ r, cyclegan_generator_resnet static_shape [] (placeholder "images")
                 2 32 (upsample_with "nn_upsample_conv" "symmetric")
                 (KInt 3) 0 = Ok r)
    as [[predictions end_points] Hgen]
    by (eexists; rewrite generator_unfold; reflexivity).
  exists predictions, end_points. split; [exact Hgen|].
  destruct (returning_call_arguments static_shape [] (placeholder "images") 2
              32 "nn_upsample_conv" "symmetric" (KInt 3) 0 predictions
              end_points Hgen) as (_ & [Hm|Hmode] & _); [discriminate|done].
Defined.

(** X10 (a non-positive block count).  With [num_resnet_blocks <= 0] the
    loop body never runs: the call builds what [num_resnet_blocks = 0]
    builds, raises nothing of its own, and records no [resnet_block_i]. *)
Theorem no_blocks_when_not_positive static_shape scope images num_resnet_blocks
    num_filters upsample_fn kernel_size tanh_linear_slope :
  num_resnet_blocks ≤ 0 →
  cyclegan_generator_resnet static_shape scope images num_resnet_blocks
    num_filters upsample_fn kernel_size tanh_linear_slope
  = cyclegan_generator_resnet static_shape scope images 0 num_filters
      upsample_fn kernel_size tanh_linear_slope
  ∧ ∀ predictions end_points i,
      cyclegan_generator_resnet static_shape scope images num_resnet_blocks
        num_filters upsample_fn kernel_size tanh_linear_slope
      = Ok (predictions, end_points) →
      end_points !! resnet_block_key i = None.
Proof.
  intros Hn. split.
  - rewrite !generator_unfold. unfold generator_stages.
    by replace (Z.to_nat num_resnet_blocks) with (Z.to_nat 0) by lia.
  - intros predictions end_points i Hgen.
    apply generator_returns in Hgen as (_ & _ & d1 & d2 & _ & _ & _ & ->).
    replace (Z.to_nat num_resnet_blocks) with O by lia.
    cbn [record_blocks].
    rewrite !lookup_insert_ne by (unfold resnet_block_key; simpl; discriminate).
    apply lookup_empty.
Qed.

Lemma no_blocks_when_not_positive_witness :
  let static_shape := λ _ : Tensor, mkShape None None None (Some 3) in
  cyclegan_generator_resnet static_shape [] (placeholder "images") (-3) 64
    default_upsample_fn (KInt 3) 0
  = cyclegan_generator_resnet static_shape [] (placeholder "images") 0 64
      default_upsample_fn (KInt 3) 0.
Proof.
  intros static_shape.
  apply (no_blocks_when_not_positive static_shape [] (placeholder "images")
           (-3) 64 default_upsample_fn (KInt 3) 0).
  lia.
Defined.

(** ** The dictionary of end points *)

Lemma record_blocks_is_Some scope num_filters kernel_size k x
    (end_points : gmap string Tensor) s :
  is_Some (record_blocks scope num_filters kernel_size k x end_points !! s)
  ↔ (∃ i : nat, (i < k)%nat ∧ s = resnet_block_key (Z.of_nat i))
    ∨ is_Some (end_points !! s).
Proof.
  induction k as [|k IH]; cbn [record_blocks].
  - split; [auto|]. intros [(i & Hi & _)|]; [lia|done].
  - rewrite lookup_insert_is_Some, IH. split.
    + intros [<-|[_ [(i & Hi & ->)|Hs]]]; [left; exists k|left; exists i|right];
        auto with lia.
    + intros [(i & Hi & ->)|Hs].
      * destruct (decide (i = k)) as [->|]; [by left|].
        right. split; [|left; exists i; auto with lia].
        intros Heq%(inj resnet_block_key). lia.
      * destruct (decide (resnet_block_key (Z.of_nat k) = s)); [by left|].
        right. auto.
Qed.

(** X1 (the keys of [end_points]).  When the generator returns, the
    dictionary has an entry exactly for [encoder_0], [encoder_1],
    [encoder_2], [decoder1], [decoder2], [logits], [predictions] and for
    [resnet_block_i] with [0 <= i < num_resnet_blocks], nothing else; and the
    tensor returned first is the entry [predictions]. *)
Theorem end_points_keys static_shape scope images num_resnet_blocks
    num_filters upsample_fn kernel_size tanh_linear_slope predictions
    end_points :
  cyclegan_generator_resnet static_shape scope images num_resnet_blocks
    num_filters upsample_fn kernel_size tanh_linear_slope
  = Ok (predictions, end_points) →
  end_points !! "predictions" = Some predictions
  ∧ ∀ key,
      is_Some (end_points !! key)
      ↔ key ∈ fixed_keys
        ∨ ∃ i, 0 ≤ i < num_resnet_blocks ∧ key = resnet_block_key i.
Proof.
  intros Hgen.
  apply generator_returns in Hgen as (_ & _ & d1 & d2 & _ & _ & _ & ->).
  split; [apply lookup_insert_eq|]. intros key.
  rewrite !lookup_insert_is_Some, record_blocks_is_Some,
    !lookup_insert_is_Some, lookup_empty, is_Some_alt.
  unfold fixed_keys. rewrite !elem_of_cons, elem_of_nil.
  split.
  - intros Hkey.
    assert ((∃ i : nat, (i < Z.to_nat num_resnet_blocks)%nat
                        ∧ key = resnet_block_key (Z.of_nat i))
            ∨ key ∈ fixed_keys) as [(i & Hi & ->)|Hfixed].
    { unfold fixed_keys. rewrite !elem_of_cons, elem_of_nil.
      intuition (subst; auto 10). }
    + right. exists (Z.of_nat i). split; [lia|done].
    + left. unfold fixed_keys in Hfixed.
      by rewrite !elem_of_cons, elem_of_nil in Hfixed.
  - intros [Hfixed|(i & Hi & ->)].
    + destruct Hfixed as [->|[->|[->|[->|[->|[->|[->|[]]]]]]]];
        repeat first [ by left | right; split; [discriminate|] ];
        right; repeat first [ by left | right; split; [discriminate|] ].
    + repeat (right; split; [unfold resnet_block_key; simpl; discriminate|]).
      left. exists (Z.to_nat i). split; [lia|]. f_equal. lia.
Qed.

Lemma end_points_keys_witness :
  let static_shape := λ _ : Tensor, mkShape None (Some 8) (Some 8) (Some 3) in
  ∃ predictions end_points,
    cyclegan_generator_resnet static_shape [] (placeholder "images") 2 64
      default_upsample_fn (KInt 3) 0 = Ok (predictions, end_points)
    ∧ is_Some (end_points !! "resnet_block_1")
    ∧ ¬ is_Some (end_points !! "resnet_block_2").
Proof.
  intros static_shape.
  assert (∃ r, cyclegan_generator_resnet static_shape [] (placeholder "images") 2
              64 default_upsample_fn (KInt 3) 0 = Ok r)
    as [[predictions end_points] Hgen]
    by (eexists; rewrite generator_unfold; reflexivity).
  exists predictions, end_points. split; [exact Hgen|].
  destruct (end_points_keys static_shape [] (placeholder "images") 2 64
              default_upsample_fn (KInt 3) 0 predictions end_points Hgen)
    as [_ Hkeys].
  split.
  - apply Hkeys. right. exists 1. split; [lia|reflexivity].
  - intros [Hfixed|(i & Hi & Hkey)]%Hkeys.
    + apply list_elem_of_In in Hfixed. simpl in Hfixed. intuition discriminate.
    + change "resnet_block_2" with (resnet_block_key 2) in Hkey.
      apply (inj resnet_block_key) in Hkey. lia.
Defined.

(** ** Shapes out of [cyclegan_upsample] *)

(** X6 (the resize methods scale by the strides).  Under
    ['nn_upsample_conv'] and ['bilinear_upsample_conv'], on a non-empty [net]
    and with strides that make the resized image at least 2 by 2, a call that
    returns gives a tensor with [strides[0]] times the height and
    [strides[1]] times the width of [net], the batch size of [net] and
    [num_outputs] channels, for each padding mode that [tf.pad] knows: the
    padding by 1 and the 3x3 VALID convolution cancel. *)
Theorem resize_methods_scale_by_strides feed scope net num_outputs strides
    method pad_mode b h w c t :
  method = "nn_upsample_conv" ∨ method = "bilinear_upsample_conv" →
  cyclegan_upsample scope net num_outputs strides method pad_mode = Ok t →
  infer feed net = Some (VShape [b; h; w; c]) →
  1 ≤ b → 1 ≤ h → 1 ≤ w → 1 ≤ c → 1 ≤ num_outputs →
  2 ≤ strides.1 * h → 2 ≤ strides.2 * w →
  infer feed t = Some (VShape [b; strides.1 * h; strides.2 * w; num_outputs]).
Proof.
  intros Hm Hup Hnet ? ? ? ? ? ? ?.
  apply cyclegan_upsample_returns in Hup as (_ & Hmode & ->).
  unfold upsampled.
  destruct Hm as [-> | ->]; cbn [String.eqb Ascii.eqb Bool.eqb];
    (destruct Hmode as [|Hmode]; [discriminate|]);
    by apply (infer_resize_conv feed _ _ _ _ _ _ _ _ _ c).
Qed.

Lemma resize_methods_scale_by_strides_witness :
  ∃ t, cyclegan_upsample [] (placeholder "net") 16 (2, 3) "nn_upsample_conv"
         "SYMMETRIC" = Ok t
       ∧ infer {[ "net" := [4; 5; 7; 32] ]} t = Some (VShape [4; 10; 21; 16]).
Proof.
  eexists. split; [reflexivity|].
  apply (resize_methods_scale_by_strides {[ "net" := [4; 5; 7; 32] ]} []
           (placeholder "net") 16 (2, 3) "nn_upsample_conv" "SYMMETRIC"
           4 5 7 32); first [by left | reflexivity | cbn [fst snd]; lia].
Defined.



(** ** Shapes in the generator *)

(** X8 (reshaping a tensor to its own shape).  The target that
    [_dynamic_or_static_shape] returns for a tensor is that tensor's shape,
    whether it comes from the fully defined static shape or from
    [tf.shape]: reshaping the tensor to it is accepted and changes no
    dimension. *)
Theorem reshape_to_own_shape static_shape feed tensor dims :
  infer feed tensor = Some (VShape dims) →
  describes (static_shape tensor) dims →
  infer feed (tf_reshape tensor (_dynamic_or_static_shape static_shape tensor))
  = Some (VShape dims).
Proof.
  intros Ht Hdesc. cbn [infer]. rewrite Ht. unfold _dynamic_or_static_shape.
  destruct (is_fully_defined (static_shape tensor)) eqn:Hfull.
  - rewrite (known_dims_fully_defined _ _ Hfull Hdesc). by rewrite decide_True.
  - cbn [infer]. rewrite Ht. by rewrite decide_True.
Qed.

Lemma reshape_to_own_shape_witness :
  let static_shape := λ _ : Tensor, mkShape (Some 2) None None (Some 3) in
  infer {[ "x" := [2; 5; 9; 3] ]}
    (tf_reshape (placeholder "x")
       (_dynamic_or_static_shape static_shape (placeholder "x")))
  = Some (VShape [2; 5; 9; 3]).
Proof.
  intros static_shape.
  apply (reshape_to_own_shape static_shape {[ "x" := [2; 5; 9; 3] ]}
           (placeholder "x") [2; 5; 9; 3]); [reflexivity|].
  unfold describes. cbn. repeat constructor.
Defined.

(** X9 (what a residual block keeps).  One pass of the residual loop, with
    the paddings the generator derives from [kernel_size], keeps the shape
    [[b; h; w; 4 * num_filters]] of [net], for a kernel size, even or odd,
    whose reflect paddings fit the height and the width ([kernel // 2] below
    the size). *)
Theorem residual_step_shape feed scope num_filters kernel_size net end_points
    block_id b h w :
  infer feed net = Some (VShape [b; h; w; num_filters * 4]) →
  1 ≤ b → 1 ≤ num_filters →
  1 ≤ (kernel_hw kernel_size).1 → (kernel_hw kernel_size).1 `div` 2 < h →
  1 ≤ (kernel_hw kernel_size).2 → (kernel_hw kernel_size).2 `div` 2 < w →
  infer feed
    (residual_block_step scope (kernel_paddings kernel_size) num_filters
       (kernel_list kernel_size) (net, end_points) block_id).1
  = Some (VShape [b; h; w; num_filters * 4]).
Proof.
  intros Hnet ? ? ? ? ? ?.
  unfold residual_block_step, _conv2d, _instance_norm. cbn [fst].
  set (sc := variable_scope scope _).
  assert (infer feed
            (tfgan_features_instance_norm sc
               (tf_layers_conv2d sc
                  (tf_pad
                     (tf_nn_relu
                        (tfgan_features_instance_norm sc
                           (tf_layers_conv2d sc
                              (tf_pad net (kernel_paddings kernel_size) "REFLECT")
                              (Some (num_filters * 4)) (kernel_list kernel_size)
                              1 "VALID" (random_normal_initializer 0 (2 # 100))
                              false)
                           true true (1 # 1000)))
                     (kernel_paddings kernel_size) "REFLECT")
                  (Some (num_filters * 4)) (kernel_list kernel_size) 1 "VALID"
                  (random_normal_initializer 0 (2 # 100)) false)
               true true (1 # 1000))
          = Some (VShape [b; h; w; num_filters * 4])) as Hpath.
  { apply infer_norm, infer_block_conv; try done.
    apply infer_relu, infer_norm. by apply infer_block_conv. }
  cbn [infer] in *. rewrite Hnet. rewrite Hnet in Hpath. rewrite Hpath.
  by rewrite broadcast_same.
Qed.

Lemma residual_step_shape_witness :
  infer {[ "net" := [1; 5; 7; 12] ]}
    (residual_block_step [] (kernel_paddings (KInt 4)) 3 (kernel_list (KInt 4))
       (placeholder "net", ∅) 0).1
  = Some (VShape [1; 5; 7; 12]).
Proof.
  apply (residual_step_shape {[ "net" := [1; 5; 7; 12] ]} [] 3 (KInt 4)
           (placeholder "net") ∅ 0 1 5 7);
    first [reflexivity | cbn [kernel_hw fst snd]; lia].
Defined.

(** X2 (shapes of the end points).  Take images of shape [[b; h; w; c]],
    non-empty, with [h] and [w] multiples of 4, described by their static
    shape with a static channel count; a positive [num_filters]; a kernel
    size of at least 1 whose reflect paddings fit the stages they are applied
    to ([kernel // 2] below half the size, and below a quarter of it when
    there is a residual block); and [cyclegan_upsample] under a method and a
    padding mode as [upsample_fn].  When the generator returns, its end
    points have the shapes of the architecture: [encoder_0] is
    [[b; h; w; num_filters]], [encoder_1] halves height and width and doubles
    the channels, [encoder_2] and every [resnet_block_i] are
    [[b; h/4; w/4; 4*num_filters]], [decoder1] is
    [[b; h/2; w/2; 2*num_filters]], [decoder2] is [[b; h; w; num_filters]],
    and [logits] and [predictions] have the shape of the images. *)
Theorem end_point_shapes static_shape feed scope images num_resnet_blocks
    num_filters method pad_mode kernel_size tanh_linear_slope b h w c
    predictions end_points :
  cyclegan_generator_resnet static_shape scope images num_resnet_blocks
    num_filters (upsample_with method pad_mode) kernel_size tanh_linear_slope
  = Ok (predictions, end_points) →
  infer feed images = Some (VShape [b; h; w; c]) →
  describes (static_shape images) [b; h; w; c] →
  dim_channels (static_shape images) = Some c →
  h `mod` 4 = 0 → w `mod` 4 = 0 →
  1 ≤ b → 1 ≤ h → 1 ≤ w → 1 ≤ c → 1 ≤ num_filters →
  1 ≤ (kernel_hw kernel_size).1 → (kernel_hw kernel_size).1 `div` 2 < h `div` 2 →
  1 ≤ (kernel_hw kernel_size).2 → (kernel_hw kernel_size).2 `div` 2 < w `div` 2 →
  (0 < num_resnet_blocks →
   (kernel_hw kernel_size).1 `div` 2 < h `div` 4
   ∧ (kernel_hw kernel_size).2 `div` 2 < w `div` 4) →
  entry_has_shape feed end_points "encoder_0" [b; h; w; num_filters]
  ∧ entry_has_shape feed end_points "encoder_1"
      [b; h `div` 2; w `div` 2; num_filters * 2]
  ∧ entry_has_shape feed end_points "encoder_2"
      [b; h `div` 4; w `div` 4; num_filters * 4]
  ∧ (∀ i, 0 ≤ i < num_resnet_blocks →
       entry_has_shape feed end_points (resnet_block_key i)
         [b; h `div` 4; w `div` 4; num_filters * 4])
  ∧ entry_has_shape feed end_points "decoder1"
      [b; h `div` 2; w `div` 2; num_filters * 2]
  ∧ entry_has_shape feed end_points "decoder2" [b; h; w; num_filters]
  ∧ entry_has_shape feed end_points "logits" [b; h; w; c]
  ∧ entry_has_shape feed end_points "predictions" [b; h; w; c].
Proof.
  intros Hgen Himg Hdesc Hc Hh4 Hw4 ? ? ? ? ? ? Hkh ? Hkw Hblock.
  apply generator_returns in Hgen
    as (_ & _ & d1 & d2 & Hup1 & Hup2 & Hpred & Hep).
  cbn zeta in Hup1, Hup2, Hpred, Hep. unfold upsample_with in Hup1, Hup2.
  apply cyclegan_upsample_returns in Hup1 as (_ & Hmode & Hd1).
  apply cyclegan_upsample_returns in Hup2 as (_ & _ & Hd2).
  set (e0 := input_stage scope num_filters images) in *.
  set (e1 := encoder_stage scope (num_filters * 2) kernel_size e0) in *.
  set (e2 := encoder_stage scope (num_filters * 4) kernel_size e1) in *.
  assert (infer feed e0 = Some (VShape [b; h; w; num_filters])) as He0
    by (apply (infer_input_stage feed _ _ _ _ _ _ c); first [done | div_lia]).
  assert (infer feed e1
          = Some (VShape [b; h `div` 2; w `div` 2; num_filters * 2])) as He1.
  { unfold e1.
    rewrite (infer_encoder_stage feed _ _ _ _ _ _ _ _ He0) by first [lia | div_lia].
    do 2 f_equal; repeat (f_equal; try div_lia). }
  assert (infer feed e2
          = Some (VShape [b; h `div` 4; w `div` 4; num_filters * 4])) as He2.
  { unfold e2.
    rewrite (infer_encoder_stage feed _ _ _ _ _ _ _ _ He1) by first [lia | div_lia].
    do 2 f_equal; repeat (f_equal; try div_lia). }
  assert (∀ k, (k ≤ Z.to_nat num_resnet_blocks)%nat →
               infer feed (residual_blocks scope num_filters kernel_size k e2)
               = Some (VShape [b; h `div` 4; w `div` 4; num_filters * 4]))
    as Hblocks.
  { intros [|k] Hk; [exact He2|].
    destruct Hblock as [? ?]; [lia|].
    apply infer_residual_blocks; first [done | lia]. }
  assert (infer feed d1
          = Some (VShape [b; h `div` 2; w `div` 2; num_filters * 2])) as Hs1.
  { rewrite Hd1.
    rewrite (infer_upsampled feed _ _ _ _ _ _ _ _ _
               (Hblocks (Z.to_nat num_resnet_blocks) ltac:(lia)) Hmode)
      by first [lia | div_lia].
    do 2 f_equal; repeat (f_equal; try div_lia). }
  assert (infer feed d2 = Some (VShape [b; h; w; num_filters])) as Hs2.
  { rewrite Hd2.
    rewrite (infer_upsampled feed _ _ _ _ _ _ _ _ _ Hs1 Hmode)
      by first [lia | div_lia].
    do 2 f_equal; repeat (f_equal; try div_lia). }
  assert (infer feed
            (tf_reshape
               (output_conv scope (dim_channels (static_shape images)) d2)
               (shape_of_images static_shape images))
          = Some (VShape [b; h; w; c])) as Hlogits.
  { rewrite (infer_reshape_to_images _ _ _ _ _ Himg Hdesc), Hc.
    rewrite (infer_output_conv feed _ _ _ _ _ _ _ Hs2) by first [lia | div_lia].
    by rewrite decide_True. }
  rewrite Hep. unfold entry_has_shape.
  repeat split.
  - eexists. split; [|exact He0].
    rewrite !lookup_insert_ne by done.
    rewrite record_blocks_lookup_other by not_block_key.
    rewrite !lookup_insert_ne by done. apply lookup_insert_eq.
  - eexists. split; [|exact He1].
    rewrite !lookup_insert_ne by done.
    rewrite record_blocks_lookup_other by not_block_key.
    rewrite !lookup_insert_ne by done. apply lookup_insert_eq.
  - eexists. split; [|exact He2].
    rewrite !lookup_insert_ne by done.
    rewrite record_blocks_lookup_other by not_block_key.
    apply lookup_insert_eq.
  - intros i Hi. eexists.
    split; [|exact (Hblocks (S (Z.to_nat i)) ltac:(lia))].
    rewrite !lookup_insert_ne by (unfold resnet_block_key; simpl; discriminate).
    replace i with (Z.of_nat (Z.to_nat i)) at 1 by lia.
    apply record_blocks_lookup. lia.
  - eexists. split; [|exact Hs1].
    rewrite !lookup_insert_ne by done. apply lookup_insert_eq.
  - eexists. split; [|exact Hs2].
    rewrite !lookup_insert_ne by done. apply lookup_insert_eq.
  - eexists. split; [|exact Hlogits].
    rewrite !lookup_insert_ne by done. apply lookup_insert_eq.
  - eexists. split; [apply lookup_insert_eq|].
    rewrite Hpred. by apply infer_predictions.
Qed.

Lemma end_point_shapes_witness :
  let static_shape := λ _ : Tensor, mkShape None (Some 16) None (Some 3) in
  let feed : gmap string (list Z) := {[ "images" := [2; 16; 24; 3] ]} in
  ∃ predictions end_points,
    cyclegan_generator_resnet static_shape [] (placeholder "images") 3 32
      (upsample_with "nn_upsample_conv" "REFLECT") (KList 3 4) 0
    = Ok (predictions, end_points)
    ∧ entry_has_shape feed end_points "resnet_block_2" [2; 4; 6; 128]
    ∧ entry_has_shape feed end_points "decoder1" [2; 8; 12; 64].
Proof.
  intros static_shape feed.
  assert (∃ r, cyclegan_generator_resnet static_shape [] (placeholder "images")
                 3 32 (upsample_with "nn_upsample_conv" "REFLECT") (KList 3 4)
                 0 = Ok r)
    as [[predictions end_points] Hgen]
    by (eexists; rewrite generator_unfold; reflexivity).
  exists predictions, end_points. split; [exact Hgen|].
  destruct (end_point_shapes static_shape feed [] (placeholder "images") 3 32
              "nn_upsample_conv" "REFLECT" (KList 3 4) 0 2 16 24 3
              predictions end_points Hgen)
    as (_ & _ & _ & Hblocks & Hd1 & _);
    [ reflexivity
    | unfold describes; cbn; repeat constructor
    | reflexivity | reflexivity | reflexivity
    | lia | lia | lia | lia | lia
    | cbn [kernel_hw fst snd]; lia | reflexivity
    | cbn [kernel_hw fst snd]; lia | reflexivity
    | intros _; split; reflexivity
    | ].
  split; [apply (Hblocks 2); lia|exact Hd1].
Defined.

(** X3 (why height and width must be multiples of 4).  Take non-empty images
    of shape [[b; h; w; c]] on which the generator returns (their height or
    width may be statically unknown, so that the check lets them pass) and
    [cyclegan_upsample] as [upsample_fn].  The two stride-2 stages round the
    height and width up to [ceil(h/4)] and [ceil(w/4)], so the output
    convolution, if it evaluates, comes out with height [4 * ceil(h/4)] and
    width [4 * ceil(w/4)]; the final reshape to the shape of the images, and
    with it the predictions, evaluate only if [h] and [w] are multiples
    of 4. *)
Theorem reshape_needs_multiples_of_4 static_shape feed scope images
    num_resnet_blocks num_filters method pad_mode kernel_size
    tanh_linear_slope b h w c predictions end_points :
  cyclegan_generator_resnet static_shape scope images num_resnet_blocks
    num_filters (upsample_with method pad_mode) kernel_size tanh_linear_slope
  = Ok (predictions, end_points) →
  infer feed images = Some (VShape [b; h; w; c]) →
  describes (static_shape images) [b; h; w; c] →
  0 < b → 0 < h → 0 < w → 0 < c →
  (∃ conv shape,
     end_points !! "logits" = Some (tf_reshape conv shape)
     ∧ ∀ dims,
         infer feed conv = Some (VShape dims) →
         dims = [b; 4 * ((h + 3) `div` 4); 4 * ((w + 3) `div` 4); c])
  ∧ (is_Some (infer feed predictions) → h `mod` 4 = 0 ∧ w `mod` 4 = 0).
Proof.
  intros Hgen Himg Hdesc Hb Hh Hw Hc0.
  apply generator_returns in Hgen
    as (_ & _ & d1 & d2 & Hup1 & Hup2 & Hpred & Hep).
  cbn zeta in Hup1, Hup2, Hpred, Hep. unfold upsample_with in Hup1, Hup2.
  apply cyclegan_upsample_returns in Hup1 as (_ & _ & Hd1).
  apply cyclegan_upsample_returns in Hup2 as (_ & _ & Hd2).
  set (h' := 4 * ((h + 3) `div` 4)).
  set (w' := 4 * ((w + 3) `div` 4)).
  set (conv := output_conv scope (dim_channels (static_shape images)) d2) in *.
  assert (at_most (infer feed conv) [b; h'; w'; c]) as Hconv.
  { unfold conv. destruct (dim_channels (static_shape images)) as [c'|] eqn:Hc;
      [|intros v Hv; by rewrite infer_output_conv_None in Hv].
    rewrite (describes_channels _ _ _ _ _ _ Hdesc Hc).
    assert (at_most (infer feed images) [b; h; w; c]) as H
      by (intros v Hv; congruence).
    apply (infer_input_stage_at_most feed scope num_filters) in H.
    apply (infer_encoder_stage_at_most feed scope (num_filters * 2)
             kernel_size) in H.
    apply (infer_encoder_stage_at_most feed scope (num_filters * 4)
             kernel_size) in H.
    apply (infer_residual_blocks_at_most feed scope num_filters kernel_size
             (Z.to_nat num_resnet_blocks)) in H.
    apply (infer_upsampled_at_most feed (decoder_scope scope "decoder1")
             method pad_mode (num_filters * 2)) in H; [|div_lia..].
    apply (infer_upsampled_at_most feed (decoder_scope scope "decoder2")
             method pad_mode num_filters) in H; [|div_lia..].
    apply (infer_output_conv_at_most feed scope c) in H.
    rewrite <- Hd1, <- Hd2 in H.
    replace (2 * (2 * (((h + 1) `div` 2 + 1) `div` 2))) with h' in H
      by (unfold h'; div_lia).
    replace (2 * (2 * (((w + 1) `div` 2 + 1) `div` 2))) with w' in H
      by (unfold w'; div_lia).
    exact H. }
  split.
  { exists conv, (shape_of_images static_shape images). split.
    - rewrite Hep, lookup_insert_ne by done. apply lookup_insert_eq.
    - intros dims Hdims. by pose proof (Hconv _ Hdims) as [= ->]. }
  rewrite Hpred. intros [dims Hlogits]%infer_predictions_is_Some.
  rewrite (infer_reshape_to_images _ _ _ _ _ Himg Hdesc) in Hlogits.
  destruct (infer feed conv) as [[dx| |]|] eqn:Hdx; try discriminate.
  pose proof (Hconv _ eq_refl) as [= ->].
  destruct (decide (num_elements _ = num_elements _)) as [Heq|]; [|discriminate].
  unfold num_elements in Heq. cbn [foldr] in Heq. rewrite !Z.mul_1_r in Heq.
  assert (h ≤ h' ∧ (h' = h → h `mod` 4 = 0)) as [Hhle Hheq]
    by (unfold h'; split; div_lia).
  assert (w ≤ w' ∧ (w' = w → w `mod` 4 = 0)) as [Hwle Hweq]
    by (unfold w'; split; div_lia).
  assert (h' * w' = h * w) as Hhw by nia.
  assert (h' = h) by nia.
  assert (w' = w) by nia.
  auto.
Qed.

Lemma reshape_needs_multiples_of_4_witness :
  let static_shape := λ _ : Tensor, mkShape None None None (Some 3) in
  let feed : gmap string (list Z) := {[ "images" := [1; 6; 8; 3] ]} in
  ∃ predictions end_points,
    cyclegan_generator_resnet static_shape [] (placeholder "images") 0 8
      (upsample_with "conv2d_transpose" "REFLECT") (KInt 3) 0
    = Ok (predictions, end_points)
    ∧ ¬ is_Some (infer feed predictions).
Proof.
  intros static_shape feed.
  assert (∃ r, cyclegan_generator_resnet static_shape [] (placeholder "images")
                 0 8 (upsample_with "conv2d_transpose" "REFLECT") (KInt 3) 0
               = Ok r)
    as [[predictions end_points] Hgen]
    by (eexists; rewrite generator_unfold; reflexivity).
  exists predictions, end_points. split; [exact Hgen|].
  destruct (reshape_needs_multiples_of_4 static_shape feed []
              (placeholder "images") 0 8 "conv2d_transpose" "REFLECT" (KInt 3)
              0 1 6 8 3 predictions end_points Hgen) as [_ Hiff];
    [reflexivity|unfold describes; cbn; repeat constructor|lia|lia|lia|lia|].
  intros [Hmod _]%Hiff. vm_compute in Hmod. discriminate.
Defined.

(** ** Variable scopes *)

Section Scopes.

Variable allowed : list string → Prop.

Lemma scopes_allowed_input_stage scope num_filters x :
  allowed (scope ++ ["input"]) →
  Forall allowed (layer_scopes x) → Forall allowed (layer_scopes (input_stage scope num_filters x)).
Proof. intros Hsc Hx. by repeat constructor. Qed.

Lemma scopes_allowed_encoder_stage scope filters kernel_size x :
  allowed (scope ++ ["encoder"]) →
  Forall allowed (layer_scopes x) → Forall allowed (layer_scopes (encoder_stage scope filters kernel_size x)).
Proof. intros Hsc Hx. by repeat constructor. Qed.

Lemma scopes_allowed_residual_blocks scope num_filters kernel_size n x :
  (∀ i : nat, (i < n)%nat → allowed (block_scope scope (Z.of_nat i))) →
  Forall allowed (layer_scopes x) →
  Forall allowed (layer_scopes (residual_blocks scope num_filters kernel_size n x)).
Proof.
  intros Hsc Hx. induction n as [|n IH]; [done|].
  cbn [residual_blocks]. unfold residual_block.
  cbn [layer_scopes]. apply Forall_app.
  assert (Forall allowed (layer_scopes (residual_blocks scope num_filters kernel_size n x)))
    as Hprev by (apply IH; intros; apply Hsc; lia).
  split; [exact Hprev|].
  assert (allowed (block_scope scope (Z.of_nat n))) by (apply Hsc; lia).
  by repeat constructor.
Qed.

Lemma scopes_allowed_cyclegan_upsample scope net num_outputs strides method
    pad_mode t :
  allowed (scope ++ ["upconv"]) →
  cyclegan_upsample scope net num_outputs strides method pad_mode = Ok t →
  Forall allowed (layer_scopes net) → Forall allowed (layer_scopes t).
Proof.
  intros Hsc (_ & _ & ->)%cyclegan_upsample_returns Hnet.
  unfold upsampled, resize_conv, transposed_conv.
  repeat case_match; cbn [layer_scopes];
    repeat first [ assumption
                 | apply Forall_nil_2
                 | apply Forall_cons; split; [assumption|]
                 | apply Forall_app; split ].
Qed.

End Scopes.

(** X11 (where the layers live).  When the generator returns, with
    [cyclegan_upsample] as [upsample_fn] and images that bring no layer of
    their own, every layer in the graph of the predictions is created in one
    of these variable scopes below the caller's: [input], [encoder],
    [encoder/residual_blocks/block_i] for [0 <= i < num_resnet_blocks],
    [encoder/decoder/decoder1/upconv], [encoder/decoder/decoder2/upconv] and
    [encoder/output]; the decoder and the output stage sit inside the
    [encoder] scope, and no layer is created anywhere else. *)
Theorem layers_live_in_generator_scopes static_shape scope images
    num_resnet_blocks num_filters method pad_mode kernel_size
    tanh_linear_slope predictions end_points :
  layer_scopes images = [] →
  cyclegan_generator_resnet static_shape scope images num_resnet_blocks
    num_filters (upsample_with method pad_mode) kernel_size tanh_linear_slope
  = Ok (predictions, end_points) →
  Forall (λ sc, sc ∈ generator_scopes scope num_resnet_blocks)
    (layer_scopes predictions).
Proof.
  intros Himg Hgen.
  apply generator_returns in Hgen
    as (_ & _ & d1 & d2 & Hup1 & Hup2 & -> & _).
  cbn zeta in Hup1, Hup2. unfold upsample_with in Hup1, Hup2.
  set (allowed := λ sc : list string,
                    sc ∈ generator_scopes scope num_resnet_blocks).
  assert (allowed (scope ++ ["input"])%list) as Hin
    by (unfold allowed, generator_scopes; apply elem_of_app; left;
        apply list_elem_of_In; simpl; auto 10).
  assert (allowed (scope ++ ["encoder"])%list) as Henc
    by (unfold allowed, generator_scopes; apply elem_of_app; left;
        apply list_elem_of_In; simpl; auto 10).
  assert (allowed (decoder_scope scope "decoder1" ++ ["upconv"])%list) as Hdec1.
  { unfold allowed, decoder_scope.
    rewrite <- app_assoc. cbn [app]. unfold generator_scopes.
    apply elem_of_app. left.
    apply list_elem_of_In. simpl. auto 10. }
  assert (allowed (decoder_scope scope "decoder2" ++ ["upconv"])%list) as Hdec2.
  { unfold allowed, decoder_scope.
    rewrite <- app_assoc. cbn [app]. unfold generator_scopes.
    apply elem_of_app. left.
    apply list_elem_of_In. simpl. auto 10. }
  assert (allowed (scope ++ ["encoder"; "output"])%list) as Hout
    by (unfold allowed, generator_scopes; apply elem_of_app; left;
        apply list_elem_of_In; simpl; auto 10).
  assert (∀ i : nat, (i < Z.to_nat num_resnet_blocks)%nat →
                     allowed (block_scope scope (Z.of_nat i))) as Hblock.
  { intros i Hi. unfold allowed, generator_scopes, block_scope.
    apply elem_of_app. right. apply list_elem_of_fmap.
    exists (Z.of_nat i). split; [done|]. apply elem_of_seqZ. lia. }
  assert (Forall allowed (layer_scopes images)) as H
    by (rewrite Himg; constructor).
  apply (scopes_allowed_input_stage allowed scope num_filters _ Hin) in H.
  apply (scopes_allowed_encoder_stage allowed scope (num_filters * 2)
           kernel_size _ Henc) in H.
  apply (scopes_allowed_encoder_stage allowed scope (num_filters * 4)
           kernel_size _ Henc) in H.
  apply (scopes_allowed_residual_blocks allowed scope num_filters kernel_size
           _ _ Hblock) in H.
  apply (scopes_allowed_cyclegan_upsample allowed _ _ _ _ _ _ _ Hdec1 Hup1)
    in H.
  apply (scopes_allowed_cyclegan_upsample allowed _ _ _ _ _ _ _ Hdec2 Hup2)
    in H.
  assert (Forall allowed
            (layer_scopes
               (tf_reshape
                  (output_conv scope (dim_channels (static_shape images)) d2)
                  (shape_of_images static_shape images)))) as Hlogits.
  { unfold shape_of_images, output_conv.
    cbn [layer_scopes]. apply Forall_app. split; [by constructor|].
    destruct (is_fully_defined _); [constructor|].
    cbn [layer_scopes]. rewrite Himg. constructor. }
  cbn [layer_scopes]. apply Forall_app. by split.
Qed.

Lemma layers_live_in_generator_scopes_witness :
  let static_shape := λ _ : Tensor, mkShape (Some 1) (Some 4) (Some 4) (Some 3) in
  ∃ predictions end_points,
    cyclegan_generator_resnet static_shape ["generator"] (placeholder "images")
      2 8 (upsample_with "bilinear_upsample_conv" "REFLECT") (KInt 3) 0
    = Ok (predictions, end_points)
    ∧ Forall (λ sc, sc ∈ generator_scopes ["generator"] 2)
        (layer_scopes predictions).
Proof.
  intros static_shape.
  assert (∃ r, cyclegan_generator_resnet static_shape ["generator"]
              (placeholder "images") 2 8
              (upsample_with "bilinear_upsample_conv" "REFLECT") (KInt 3) 0 = Ok r)
    as [[predictions end_points] Hgen]
    by (eexists; rewrite generator_unfold; reflexivity).
  exists predictions, end_points. split; [exact Hgen|].
  exact (layers_live_in_generator_scopes static_shape ["generator"]
           (placeholder "images") 2 8 "bilinear_upsample_conv" "REFLECT"
           (KInt 3) 0 predictions end_points eq_refl Hgen).
Defined.
